(** * AiRecruit: the vacancy field-collection state machine

    A shallow embedding of the field-collection logic of the two chat
    servers of the repository, [VacancyBuilder] and
    [IntelligentRecruiterChat], and the properties the specification
    states about it: the path helper, the next-field selection, the merge
    of an extraction into the record, the skip branch, the heuristic
    mappings, the completion check and the two chat routes.

    Conventions of the embedding.
    - JavaScript values are the inductive type [JsVal].  Numbers are the
      integers JavaScript prints in plain decimal (a [Z]) plus [NaN];
      fractional numbers are not represented.  Strings are byte strings;
      case conversion and the whitespace class are the ASCII ones.
    - Objects are finite maps from property names to values; only own data
      properties are represented (no inherited methods, no getters).  An
      array is its elements and, as in JavaScript, the named properties
      that an assignment may have created on it.
    - Code that can throw lives in the [completion] monad.
    - Calls to the language model, to the clock, to the description
      generator of the IntelligentRecruiterChat server and to the webhook
      are inputs of the functions that perform them (what they give back
      is an argument), so every function below is executable.

    The file has two parts: the definitions, translated from the source
    (and, in module [Spec], from the words of the specification), then the
    theorems: first those of the specification (C1 to C10), then further
    properties of the same code (X1 to X17). *)

From stdpp Require Import base option list strings gmap fin_maps.
From Stdlib Require Import Ascii ZArith DecimalString Lia.

Set Warnings "-register-all".
Open Scope string_scope.

(** ** JavaScript values *)

Inductive JsVal : Type :=
| JUndefined
| JNull
| JBool (b : bool)
| JNum (n : Z)
| JNaN
| JStr (s : string)
| JArr (elems : list JsVal) (props : gmap string JsVal)
| JObj (props : gmap string JsVal).

(** An array literal: elements only, no named property. *)
Definition JArray (l : list JsVal) : JsVal := JArr l ∅.

(** A record is an object. *)
Abbreviation Obj := (gmap string JsVal).

Inductive JsError : Type :=
| TypeError
| RangeError
| SyntaxError
| Error (msg : string).

Inductive completion (A : Type) : Type :=
| Normal (a : A)
| Throw (e : JsError).
Arguments Normal {A} a.
Arguments Throw {A} e.

#[export] Instance completion_ret : MRet completion := fun A a => Normal a.
#[export] Instance completion_bind : MBind completion := fun A B f m =>
  match m with
  | Normal a => f a
  | Throw e => Throw e
  end.

(** [try { m } catch { h }] *)
Definition try_catch {A} (m : completion A) (h : JsError -> completion A) : completion A :=
  match m with
  | Normal a => Normal a
  | Throw e => h e
  end.

Definition returns {A} (m : completion A) : Prop := exists a, m = Normal a.

(** ** Primitive operations on values *)

(** ToBoolean *)
Definition truthy (v : JsVal) : bool :=
  match v with
  | JUndefined | JNull | JNaN => false
  | JBool b => b
  | JNum n => negb (n =? 0)%Z
  | JStr s => negb (String.eqb s "")
  | JArr _ _ | JObj _ => true
  end.

Definition is_undefined (v : JsVal) : bool :=
  match v with JUndefined => true | _ => false end.

Definition is_null (v : JsVal) : bool :=
  match v with JNull => true | _ => false end.

(** [v === null || v === undefined] *)
Definition nullish (v : JsVal) : bool := is_null v || is_undefined v.

(** Array.isArray *)
Definition isArray (v : JsVal) : bool :=
  match v with JArr _ _ => true | _ => false end.

(** Reading a property of an object; an absent one reads as [undefined]. *)
Definition prop (o : Obj) (k : string) : JsVal := default JUndefined (o !! k).

(** A canonical array index: a decimal numeral without leading zero. *)
Definition parse_index (s : string) : option nat :=
  match NilZero.uint_of_string s with
  | Some u =>
      let n := Nat.of_uint u in
      if String.eqb (NilZero.string_of_uint (Nat.to_uint n)) s then Some n else None
  | None => None
  end.

(** [base[k]]: throws on [null] and [undefined]; strings and arrays have
    [length] and their indices. *)
Definition get_member (base : JsVal) (k : string) : completion JsVal :=
  match base with
  | JUndefined | JNull => Throw TypeError
  | JObj o => Normal (prop o k)
  | JArr l o =>
      if String.eqb k "length" then Normal (JNum (Z.of_nat (length l)))
      else match parse_index k with
           | Some i => Normal (default (prop o k) (l !! i))
           | None => Normal (prop o k)
           end
  | JStr s =>
      if String.eqb k "length" then Normal (JNum (Z.of_nat (String.length s)))
      else match parse_index k with
           | Some i =>
               Normal (match String.get i s with
                       | Some c => JStr (String c "")
                       | None => JUndefined
                       end)
           | None => Normal JUndefined
           end
  | JBool _ | JNum _ | JNaN => Normal JUndefined
  end.

(** [v.length === 0] *)
Definition length_is_zero (v : JsVal) : completion bool :=
  n ← get_member v "length";
  mret (match n with JNum 0 => true | _ => false end).

(** ** Strings *)

Definition lower_ascii (c : ascii) : ascii :=
  let n := nat_of_ascii c in
  if (65 <=? n)%nat && (n <=? 90)%nat then ascii_of_nat (n + 32) else c.

Fixpoint toLowerCase (s : string) : string :=
  match s with
  | EmptyString => EmptyString
  | String c s' => String (lower_ascii c) (toLowerCase s')
  end.

(** [s.includes(needle)] *)
Fixpoint includes (s needle : string) : bool :=
  String.prefix needle s ||
  match s with
  | EmptyString => false
  | String _ s' => includes s' needle
  end.

(** The class [\s] restricted to ASCII. *)
Definition is_space (c : ascii) : bool :=
  let n := nat_of_ascii c in
  ((9 <=? n)%nat && (n <=? 13)%nat) || (n =? 32)%nat.

(** The class [\d]. *)
Definition is_digit (c : ascii) : bool :=
  let n := nat_of_ascii c in
  (48 <=? n)%nat && (n <=? 57)%nat.

Fixpoint trimStart (s : string) : string :=
  match s with
  | EmptyString => EmptyString
  | String c s' => if is_space c then trimStart s' else s
  end.

Fixpoint trimEnd (s : string) : string :=
  match s with
  | EmptyString => EmptyString
  | String c s' =>
      match trimEnd s' with
      | EmptyString => if is_space c then EmptyString else String c EmptyString
      | t => String c t
      end
  end.

Definition trim (s : string) : string := trimEnd (trimStart s).

(** [s.split('.')] *)
Fixpoint split_dot (s : string) : list string :=
  match s with
  | EmptyString => [EmptyString]
  | String c s' =>
      if Ascii.eqb c "." then EmptyString :: split_dot s'
      else match split_dot s' with
           | h :: t => String c h :: t
           | [] => [String c EmptyString]
           end
  end.

Definition string_of_Z (n : Z) : string := NilZero.string_of_int (Z.to_int n).

(** [String(v)]; an array is its elements joined by commas, [null] and
    [undefined] elements giving the empty string. *)
Fixpoint js_String (v : JsVal) : string :=
  match v with
  | JUndefined => "undefined"
  | JNull => "null"
  | JBool true => "true"
  | JBool false => "false"
  | JNum n => string_of_Z n
  | JNaN => "NaN"
  | JStr s => s
  | JArr l _ =>
      (fix join (l : list JsVal) : string :=
         match l with
         | [] => ""
         | x :: rest =>
             let sx := match x with
                       | JUndefined | JNull => ""
                       | _ => js_String x
                       end in
             match rest with
             | [] => sx
             | _ :: _ => sx ++ "," ++ join rest
             end
         end) l
  | JObj _ => "[object Object]"
  end.

Definition string_of_nat (n : nat) : string := NilZero.string_of_uint (Nat.to_uint n).

(** [parseInt(s)] for a string of decimal digits (the only strings it is
    applied to here are the digit groups of a match). *)
Definition parseInt (s : string) : JsVal :=
  match NilZero.uint_of_string s with
  | Some u => JNum (Z.of_uint u)
  | None => JNaN
  end.

(** [base[k] = v] in strict mode (class bodies are strict): creating a
    property on a primitive throws; an array takes an element (growing
    with [undefined] in between), a new length, or a named property.  The
    updated [base] is returned.  Only a number is taken as a new length;
    the conversion JavaScript applies to other values is not modelled and
    they are refused like an invalid length. *)
Definition set_member (base : JsVal) (k : string) (v : JsVal) : completion JsVal :=
  match base with
  | JObj o => Normal (JObj (<[k := v]> o))
  | JArr l o =>
      if String.eqb k "length" then
        match v with
        | JNum n =>
            if (0 <=? n)%Z && (n <? 4294967296)%Z
            then Normal (JArr (take (Z.to_nat n) l
                                 ++ replicate (Z.to_nat n - length l) JUndefined)%list o)
            else Throw RangeError
        | _ => Throw RangeError
        end
      else match parse_index k with
           | Some i =>
               if (i <? length l)%nat then Normal (JArr (<[i := v]> l) o)
               else Normal (JArr (l ++ replicate (i - length l) JUndefined ++ [v])%list o)
           | None => Normal (JArr l (<[k := v]> o))
           end
  | _ => Throw TypeError
  end.

(** ** getValueByPath (the same helper in both servers) *)

(** One step of the reducer
    [(acc, part) => (acc && acc[part] !== undefined) ? acc[part] : undefined]. *)
Definition path_step (acc : JsVal) (part : string) : completion JsVal :=
  if truthy acc then
    x ← get_member acc part;
    if negb (is_undefined x) then get_member acc part else mret JUndefined
  else mret JUndefined.

(** [l.reduce(f, init)] for a callback that may throw. *)
Fixpoint reduce {A B} (f : B -> A -> completion B) (l : list A) (init : B) : completion B :=
  match l with
  | [] => mret init
  | x :: rest => acc ← f init x; reduce f rest acc
  end.

Definition getValueByPath (obj path : JsVal) : completion JsVal :=
  if negb (truthy path) || negb (truthy obj) then mret JUndefined
  else
    let pathArray := split_dot (js_String path) in
    reduce path_step pathArray obj.

(** The first segment of a path. *)
Definition root (path : string) : string := default "" (head (split_dot path)).

(** The value [getValueByPath] returns, as a plain function. *)
Definition valueByPath (obj path : JsVal) : JsVal :=
  match getValueByPath obj path with
  | Normal v => v
  | Throw _ => JUndefined
  end.


(** ** Arrays of names *)

(** [l.indexOf(x)], -1 when absent. *)
Fixpoint indexOf (l : list string) (x : string) : Z :=
  match l with
  | [] => (-1)%Z
  | y :: rest =>
      if String.eqb y x then 0%Z
      else let i := indexOf rest x in
           if (i <? 0)%Z then (-1)%Z else (i + 1)%Z
  end.

(** A relative index of [slice], resolved against the length. *)
Definition slice_index (len : nat) (i : Z) : nat :=
  if (i <? 0)%Z then Z.to_nat (Z.max 0 (Z.of_nat len + i))
  else Nat.min (Z.to_nat i) len.

(** [l.slice(start, end)] and [l.slice(start)] *)
Definition slice {A} (l : list A) (start stop : Z) : list A :=
  let s := slice_index (length l) start in
  let e := slice_index (length l) stop in
  take (e - s) (drop s l).

Definition slice_from {A} (l : list A) (start : Z) : list A :=
  drop (slice_index (length l) start) l.

(** [s.replace] with the global pattern of one double quote and the empty
    replacement: every double quote is removed. *)
Fixpoint remove_quotes (s : string) : string :=
  match s with
  | EmptyString => EmptyString
  | String c s' =>
      if (nat_of_ascii c =? 34)%nat then remove_quotes s'
      else String c (remove_quotes s')
  end.

(** ** HTTP exchange *)

Record Request := { req_message : JsVal; req_sessionId : JsVal }.

Record Response := { res_status : nat; res_body : Obj }.

Inductive Role := user | assistant.

Record Turn := { role : Role; content : JsVal }.

(** What a call to the language model gave back, as far as the caller
    that parses a JSON reply can tell: the call failed, the text was not
    JSON, or it parsed to a value. *)
Inductive Reply :=
| ApiFailure
| Malformed
| Parsed (v : JsVal).

Definition api_error : JsError := Error "Failed to get a response from the AI assistant.".

(** [sessionId && sessions.has(sessionId)] and [sessions.get(sessionId)]:
    the keys of the session map are strings. *)
Definition lookup_session {S} (sessions : gmap string S) (sessionId : JsVal)
  : option (string * S) :=
  match sessionId with
  | JStr sid => if truthy sessionId then (fun s => (sid, s)) <$> sessions !! sid else None
  | _ => None
  end.

(** * The VacancyBuilder server *)

Module VacancyBuilder.

Inductive FieldType := TString | TEnum | TNumber | TArray | TBoolean.

(** A field descriptor; the description text and the enum options, which
    only feed the prompts, are left out. *)
Record Field := { name : string; displayName : string; type : FieldType }.

Definition fields : list Field :=
  [ {| name := "title"; displayName := "Job Title"; type := TString |};
    {| name := "department"; displayName := "Department"; type := TEnum |};
    {| name := "location.type"; displayName := "Location Type"; type := TEnum |};
    {| name := "location.city"; displayName := "City"; type := TString |};
    {| name := "domain"; displayName := "Domain"; type := TEnum |};
    {| name := "salary.from"; displayName := "Minimum Salary"; type := TNumber |};
    {| name := "salary.to"; displayName := "Maximum Salary"; type := TNumber |};
    {| name := "experience.min"; displayName := "Minimum Years of Experience"; type := TNumber |};
    {| name := "experience.max"; displayName := "Maximum Years of Experience"; type := TNumber |};
    {| name := "responsibilities"; displayName := "Responsibilities"; type := TArray |};
    {| name := "skills"; displayName := "Primary Skills"; type := TArray |};
    {| name := "secondary_skills"; displayName := "Secondary Skills"; type := TArray |};
    {| name := "soft_skills"; displayName := "Soft Skills"; type := TArray |};
    {| name := "benefits"; displayName := "Benefits"; type := TArray |};
    {| name := "is_remote"; displayName := "Remote Work"; type := TBoolean |} ].

Definition getVacancyTemplate : JsVal :=
  JObj (list_to_map
    [ ("title", JNull);
      ("department", JNull);
      ("location", JObj (list_to_map [("type", JNull); ("city", JNull)]));
      ("domain", JNull);
      ("salary", JObj (list_to_map [("from", JNull); ("to", JNull)]));
      ("experience", JObj (list_to_map [("min", JNull); ("max", JNull)]));
      ("responsibilities", JArray []);
      ("skills", JArray []);
      ("secondary_skills", JArray []);
      ("soft_skills", JArray []);
      ("benefits", JArray []);
      ("is_remote", JNull) ]).

(** The test of the search loop:
    [value === null || (Array.isArray(value) && value.length === 0) || value === ''] *)
Definition unfilled (value : JsVal) : bool :=
  is_null value
  || match value with JArr l _ => (length l =? 0)%nat | _ => false end
  || match value with JStr s => String.eqb s "" | _ => false end.

(** The [for ... of searchOrder] loop of [findNextFieldToFill]. *)
Fixpoint search (fs : list Field) (vacancy : JsVal) (searchOrder : list string)
  : completion (option Field) :=
  match searchOrder with
  | [] => mret None
  | fieldName :: rest =>
      value ← getValueByPath vacancy (JStr fieldName);
      if unfilled value
      then mret (List.find (fun f => String.eqb (name f) fieldName) fs)
      else search fs vacancy rest
  end.

(** [lastFieldName ? fieldNames.indexOf(lastFieldName) : -1] *)
Definition lastIndexOf (fieldNames : list string) (lastFieldName : option string) : Z :=
  match lastFieldName with
  | Some l => if negb (String.eqb l "") then indexOf fieldNames l else (-1)%Z
  | None => (-1)%Z
  end.

(** [findNextFieldToFill(vacancy, lastFieldName)], over [this.fields = fs];
    [None] stands for the [null] it returns when nothing is left. *)
Definition findNextFieldToFill (fs : list Field) (vacancy : JsVal)
    (lastFieldName : option string) : completion (option Field) :=
  let fieldNames := map name fs in
  let lastIndex := lastIndexOf fieldNames lastFieldName in
  let searchOrder :=
    (slice_from fieldNames (lastIndex + 1) ++ slice fieldNames 0 (lastIndex + 1))%list in
  search fs vacancy searchOrder.

Record Session := {
  id : string;
  conversationHistory : list Turn;
  vacancy : JsVal;
  status : string;
  lastQuestionField : option string }.

Definition set_vacancy (s : Session) (v : JsVal) : Session :=
  {| id := id s; conversationHistory := conversationHistory s; vacancy := v;
     status := status s; lastQuestionField := lastQuestionField s |}.

Definition push_history (s : Session) (t : Turn) : Session :=
  {| id := id s; conversationHistory := conversationHistory s ++ [t];
     vacancy := vacancy s; status := status s;
     lastQuestionField := lastQuestionField s |}.

Definition set_status (s : Session) (st : string) : Session :=
  {| id := id s; conversationHistory := conversationHistory s; vacancy := vacancy s;
     status := st; lastQuestionField := lastQuestionField s |}.

Definition set_lastQuestionField (s : Session) (f : option string) : Session :=
  {| id := id s; conversationHistory := conversationHistory s; vacancy := vacancy s;
     status := status s; lastQuestionField := f |}.

Definition rephrase_request : string :=
  "I'm having a little trouble understanding. Could you please rephrase that?".

(** The body of the [try] of [extractAndUpdateFields]: the call, the
    parse and the check that the reply has a status and a vacancy. *)
Definition checked_reply (reply : Reply) : completion JsVal :=
  match reply with
  | ApiFailure => Throw api_error
  | Malformed => Throw SyntaxError
  | Parsed parsedResult =>
      st ← get_member parsedResult "status";
      if negb (truthy st)
      then Throw (Error "AI response is missing 'status' or 'updatedVacancy' fields.")
      else
        uv ← get_member parsedResult "updatedVacancy";
        if negb (truthy uv)
        then Throw (Error "AI response is missing 'status' or 'updatedVacancy' fields.")
        else mret parsedResult
  end.

(** [extractAndUpdateFields]: every failure of the [try] yields the
    fallback object, which carries the vacancy it was given. *)
Definition extractAndUpdateFields (vacancy : JsVal) (reply : Reply) : JsVal :=
  match checked_reply reply with
  | Normal parsedResult => parsedResult
  | Throw _ =>
      JObj (list_to_map
        [ ("status", JStr "CLARIFICATION_NEEDED");
          ("updatedVacancy", vacancy);
          ("commentary", JStr rephrase_request) ])
  end.

(** [generateJobDescription]: building the prompt reads the skill lists,
    the languages and the salary group, and throws when they do not have
    the shape it expects; then the model is called. *)
Definition generateJobDescription (vacancy : JsVal) (reply : completion string)
  : completion string :=
  coreSkills ← get_member vacancy "coreSkills";
  secondarySkills ← get_member vacancy "secondarySkills";
  languages ← get_member vacancy "languages";
  salaryExpectations ← get_member vacancy "salaryExpectations";
  if negb (isArray coreSkills) then Throw TypeError else
  if negb (isArray secondarySkills) then Throw TypeError else
  match languages with
  | JArr langs _ =>
      if forallb (fun lang => negb (nullish lang)) langs then
        _ ← get_member salaryExpectations "min";
        reply
      else Throw TypeError
  | _ => Throw TypeError
  end.

(** The answer of [generateNextResponse] and the field it recorded as
    last asked (the session is updated before the question is phrased, so
    the field stays recorded when phrasing throws). *)
Definition generateNextResponse (s : Session)
    (question description : completion string)
  : Session * completion (JsVal * bool) :=
  match findNextFieldToFill fields (vacancy s) (lastQuestionField s) with
  | Throw e => (s, Throw e)
  | Normal None =>
      (s, vacancyText ← generateJobDescription (vacancy s) description;
          mret (JStr ("Looks like we have all the details. Here is the generated vacancy description:"
                        ++ String (ascii_of_nat 10) (String (ascii_of_nat 10) vacancyText)), true))
  | Normal (Some nextField) =>
      let s' := set_lastQuestionField s (Some (name nextField)) in
      (s', q ← question; mret (JStr (remove_quotes q), false))
  end.

Definition new_session (sessionId : string) : Session :=
  {| id := sessionId; conversationHistory := []; vacancy := getVacancyTemplate;
     status := "collecting"; lastQuestionField := None |}.

Definition internal_error : Response :=
  {| res_status := 500;
     res_body := {[ "error" := JStr "An internal server error occurred." ]} |}.

Definition chat_reply (sessionId : string) (message : JsVal) (isComplete : bool) : Response :=
  {| res_status := 200;
     res_body := list_to_map
       [ ("sessionId", JStr sessionId); ("message", message);
         ("isComplete", JBool isComplete) ] |}.

Definition open_session (now : string) (sessions : gmap string Session) (req : Request)
  : string * Session :=
  match lookup_session sessions (req_sessionId req) with
  | Some (sid, s) => (sid, s)
  | None => (now, new_session now)
  end.

(** The rest of the route once the message, if any, is processed. *)
Definition answer (question description : completion string)
    (sessions : gmap string Session) (sessionId : string) (s : Session)
  : gmap string Session * Response :=
  let '(s1, r) := generateNextResponse s question description in
  match r with
  | Throw _ => (<[sessionId := s1]> sessions, internal_error)
  | Normal (msg, isComplete) =>
      let s2 := push_history s1 {| role := assistant; content := msg |} in
      let s3 := set_status s2 (if isComplete : bool then "pending_generation" else "collecting") in
      (<[sessionId := s3]> sessions, chat_reply (id s3) msg isComplete)
  end.

(** [POST /api/recruiter/chat].  [now] is [Date.now().toString()];
    [extraction], [question] and [description] are what the three calls to
    the model give back if they are made.  The session object lives in the
    session map and is updated in place, so its changes stay when a later
    step throws. *)
Definition chat (now : string) (extraction : Reply)
    (question description : completion string)
    (sessions : gmap string Session) (req : Request)
  : gmap string Session * Response :=
  let '(sessionId, s0) := open_session now sessions req in
  let message := req_message req in
  if truthy message then
    let s1 := push_history s0 {| role := user; content := message |} in
    let extractionResult := extractAndUpdateFields (vacancy s1) extraction in
    match get_member extractionResult "updatedVacancy" with
    | Throw _ => (<[sessionId := s1]> sessions, internal_error)
    | Normal updated =>
        (* Always update the vacancy *)
        let s2 := set_vacancy s1 updated in
        match get_member extractionResult "status" with
        | Normal (JStr "CLARIFICATION_NEEDED") =>
            match get_member extractionResult "commentary" with
            | Normal commentary =>
                let s3 := push_history s2 {| role := assistant; content := commentary |} in
                (<[sessionId := s3]> sessions, chat_reply sessionId commentary false)
            | Throw _ => (<[sessionId := s2]> sessions, internal_error)
            end
        | Normal _ => answer question description sessions sessionId s2
        | Throw _ => (<[sessionId := s2]> sessions, internal_error)
        end
    end
  else answer question description sessions sessionId s0.

(** The calls of the ring-coverage property: [n] further calls of
    [findNextFieldToFill], the field returned by a call being the last
    asked field of the next one (as [generateNextResponse] records it). *)
Fixpoint ask (fs : list Field) (vacancy : JsVal) (lastFieldName : option string) (n : nat)
  : completion (list string) :=
  match n with
  | O => mret []
  | S n' =>
      next ← findNextFieldToFill fs vacancy lastFieldName;
      match next with
      | Some f =>
          rest ← ask fs vacancy (Some (name f)) n';
          mret (name f :: rest)
      | None => mret []
      end
  end.

End VacancyBuilder.

(** * The IntelligentRecruiterChat server *)

Module IntelligentRecruiterChat.

Inductive FieldType := TString | TEnum | TNumber | TArray | TBoolean.

Definition getVacancyTemplate : Obj :=
  list_to_map
    [ ("title", JNull);
      ("description", JNull);
      ("authorId", JStr "user_2hm9OQpFfHybPE5X2YAKC10dfJW");
      ("orgId", JStr "org_2hm9FHY47aoA4uB6HZVf64dohbO");
      ("hiringCompanyId", JStr "bac58803-ce02-4fcd-abea-7d89652037aa");
      ("department", JNull);
      ("additionalInformation", JNull);
      ("locationType", JNull);
      ("remote", JNull);
      ("aiModel", JNull);
      ("companyType", JNull);
      ("employmentType", JNull);
      ("domain", JNull);
      ("isTestsTask", JNull);
      ("coreSkills", JArray []);
      ("secondarySkills", JArray []);
      ("overallExperiencesFrom", JNull);
      ("overallExperiencesTo", JNull);
      ("education", JNull);
      ("languages", JArray []);
      ("salaryExpectations",
        JObj (list_to_map [("min", JNull); ("max", JNull); ("currency", JStr "USD")])) ].

(** [this.vacancyFields]: the name and the type of every field. *)
Definition vacancyFields : list (string * FieldType) :=
  [ ("title", TString); ("description", TString); ("department", TEnum);
    ("additionalInformation", TString); ("locationType", TEnum);
    ("remote", TBoolean); ("aiModel", TEnum); ("companyType", TEnum);
    ("employmentType", TEnum); ("domain", TEnum); ("isTestsTask", TBoolean);
    ("coreSkills", TArray); ("secondarySkills", TArray);
    ("overallExperiencesFrom", TNumber); ("overallExperiencesTo", TNumber);
    ("education", TBoolean); ("languages", TArray);
    ("salaryExpectations.min", TNumber); ("salaryExpectations.max", TNumber) ].

Definition requiredFields : list string :=
  ["title"; "department"; "domain"; "coreSkills"; "overallExperiencesFrom"].

(** [!value || (Array.isArray(value) && value.length === 0)] *)
Definition missing_required (value : JsVal) : bool :=
  negb (truthy value)
  || match value with JArr l _ => (length l =? 0)%nat | _ => false end.

(** The loop of [isVacancyComplete] over the fields still to check. *)
Fixpoint complete_loop (vacancy : JsVal) (fs : list string) : completion bool :=
  match fs with
  | [] => mret true
  | field :: rest =>
      value ← getValueByPath vacancy (JStr field);
      if missing_required value then mret false else complete_loop vacancy rest
  end.

Definition isVacancyComplete (vacancy : JsVal) : completion bool :=
  complete_loop vacancy requiredFields.

Definition allFields : list string :=
  [ "title"; "department"; "domain"; "coreSkills"; "overallExperiencesFrom";
    "salaryExpectations.min"; "locationType"; "employmentType"; "companyType";
    "secondarySkills"; "overallExperiencesTo"; "languages"; "education";
    "isTestsTask"; "description" ].

Definition is_boolean_field (field : string) : bool :=
  String.eqb field "isTestsTask" || String.eqb field "education" || String.eqb field "remote".

Definition is_optional_text_field (field : string) : bool :=
  String.eqb field "description" || String.eqb field "additionalInformation".

(** [value === null || value === undefined || (Array.isArray(value) &&
    value.length === 0) || (typeof value === 'number' && isNaN(value))] *)
Definition isEmpty (value : JsVal) : bool :=
  is_null value || is_undefined value
  || match value with JArr l _ => (length l =? 0)%nat | _ => false end
  || match value with JNaN => true | _ => false end.

(** [typeof value === 'string' && value.trim() === ''] *)
Definition is_blank_string (value : JsVal) : bool :=
  match value with JStr s => String.eqb (trim s) "" | _ => false end.

(** Whether the loop of [getNextMissingField] returns at [field]. *)
Definition is_missing (field : string) (value : JsVal) : bool :=
  if is_boolean_field field then is_null value || is_undefined value
  else if is_optional_text_field field then is_null value || is_undefined value
  else isEmpty value || is_blank_string value.

Fixpoint missing_loop (vacancy : JsVal) (fs : list string) : completion (option string) :=
  match fs with
  | [] => mret None
  | field :: rest =>
      value ← getValueByPath vacancy (JStr field);
      if is_missing field value then mret (Some field) else missing_loop vacancy rest
  end.

(** [getNextMissingField(vacancy)]; [None] is the [null] of "all filled". *)
Definition getNextMissingField (vacancy : JsVal) : completion (option string) :=
  missing_loop vacancy allFields.

Definition descriptions : list (string * string) :=
  [ ("title", "job title");
    ("department", "department");
    ("domain", "business domain/industry");
    ("coreSkills", "required skills and technologies");
    ("overallExperiencesFrom", "minimum years of experience");
    ("salaryExpectations.min", "salary range");
    ("locationType", "work format (remote/hybrid/on-site)");
    ("employmentType", "employment type (full-time/part-time)");
    ("companyType", "company type");
    ("secondarySkills", "additional nice-to-have skills");
    ("overallExperiencesTo", "maximum years of experience");
    ("languages", "language requirements");
    ("education", "education requirements");
    ("isTestsTask", "test assignment requirement");
    ("description", "job description and additional details about the role") ].

Definition table_lookup (t : list (string * string)) (k : string) : option string :=
  snd <$> List.find (fun e => String.eqb (fst e) k) t.

(** [descriptions[fieldName] || fieldName] *)
Definition getFieldDescription (fieldName : string) : string :=
  match table_lookup descriptions fieldName with
  | Some d => d
  | None => fieldName
  end.

(** The default a skipped field receives, chosen by the name of the field. *)
Definition skip_default (nextField : option string) : JsVal :=
  match nextField with
  | Some f =>
      if String.eqb f "isTestsTask" || String.eqb f "education" || String.eqb f "remote"
      then JBool false
      else if String.eqb f "secondarySkills" || String.eqb f "languages"
      then JArray []
      else if includes f "salaryExpectations" || String.eqb f "overallExperiencesTo"
      then JNull
      else JStr ""
  | None => JStr ""
  end.

(** The object [checkForSkipResponse] returns when [shouldSkip] is true;
    [None] below stands for [{ shouldSkip: false }]. *)
Record SkipResponse := { value : JsVal; field : option string }.

(** [checkForSkipResponse(userMessage, currentVacancy)]: [reply] is what
    the classification call gives back; every failure is caught and
    answers "do not skip". *)
Definition checkForSkipResponse (reply : completion string) (currentVacancy : Obj)
  : option SkipResponse :=
  let attempt : completion (option SkipResponse) :=
    nextField ← getNextMissingField (JObj currentVacancy);
    response ← reply;
    let shouldSkip := includes (trim (toLowerCase response)) "skip" in
    if shouldSkip
    then mret (Some {| value := skip_default nextField; field := nextField |})
    else mret None in
  match attempt with
  | Normal r => r
  | Throw _ => None
  end.

(** *** applySmartMappings *)

Fixpoint span_digits (s : string) : string * string :=
  match s with
  | EmptyString => (EmptyString, EmptyString)
  | String c s' =>
      if is_digit c then let '(d, r) := span_digits s' in (String c d, r)
      else (EmptyString, s)
  end.

Fixpoint drop_while (p : ascii -> bool) (s : string) : string :=
  match s with
  | EmptyString => EmptyString
  | String c s' => if p c then drop_while p s' else s
  end.

(** The pattern [(\d+)[-\s]*(\d+)?\s*dollars?] anchored at the start of
    [s]: the two digit groups.  Every repetition is greedy and no shorter
    choice can make the pattern succeed where the longest fails, so the
    longest runs decide. *)
Definition salary_at (s : string) : option (string * option string) :=
  let '(d1, r1) := span_digits s in
  if String.eqb d1 "" then None else
  let r2 := drop_while (fun c => Ascii.eqb c "-" || is_space c) r1 in
  let '(d2, r3) := span_digits r2 in
  let r4 := drop_while is_space r3 in
  if String.prefix "dollar" r4
  then Some (d1, if String.eqb d2 "" then None else Some d2)
  else None.

(** The pattern [(\d+)\s*(?:years?|yrs?)] anchored at the start of [s]. *)
Definition years_at (s : string) : option string :=
  let '(d, r1) := span_digits s in
  if String.eqb d "" then None else
  let r2 := drop_while is_space r1 in
  if String.prefix "year" r2 || String.prefix "yr" r2 then Some d else None.

(** [s.match(pattern)]: the leftmost position where the pattern matches. *)
Fixpoint match_first {A} (at_start : string -> option A) (s : string) : option A :=
  match at_start s with
  | Some r => Some r
  | None =>
      match s with
      | EmptyString => None
      | String _ s' => match_first at_start s'
      end
  end.

(** [skillPatterns], in the order of its entries: each pattern is
    case-insensitive and tests true when one of its words occurs (the
    optional suffixes of the patterns do not change that). *)
Definition skillPatterns : list (string * list string) :=
  [ ("react", ["react"]); ("next", ["next"]); ("vue", ["vue"]);
    ("angular", ["angular"]); ("node", ["node"]);
    ("typescript", ["typescript"; "ts"]); ("javascript", ["javascript"; "js"]);
    ("python", ["python"]); ("docker", ["docker"]);
    ("kubernetes", ["kubernetes"; "k8s"]);
    ("aws", ["aws"; "amazon web services"]); ("azure", ["azure"]);
    ("gcp", ["gcp"; "google cloud"]) ].

Definition pattern_test (words : list string) (text : string) : bool :=
  existsb (fun w => includes (toLowerCase text) w) words.

(** [o[k] = v] on the object under construction; [writable] is false when
    that object is a primitive, on which the assignment throws. *)
Definition assign (writable : bool) (o : Obj) (k : string) (v : JsVal) : completion Obj :=
  if writable then mret (<[k := v]> o) else Throw TypeError.

(** [currentVacancy.salaryExpectations?.min] *)
Definition current_salary_min (currentVacancy : Obj) : JsVal :=
  let se := prop currentVacancy "salaryExpectations" in
  if nullish se then JUndefined
  else match get_member se "min" with Normal v => v | Throw _ => JUndefined end.

Definition title_is_technical (t : string) : bool :=
  let l := toLowerCase t in
  includes l "developer" || includes l "engineer"
  || includes l "frontend" || includes l "backend".

(** The six heuristics of [applySmartMappings], in the order of the
    source.  Each takes the object under construction [uv] and returns it
    after its write, if any; [msg] is the lower-cased message and each
    guard reads [currentVacancy] only. *)

(** Auto-fill department for developer roles. *)
Definition map_department (writable : bool) (currentVacancy uv : Obj) : completion Obj :=
  let title := prop uv "title" in
  technical ←
    (if truthy title
     then match title with
          | JStr t => mret (title_is_technical t)
          | _ => Throw TypeError
          end
     else mret false);
  if technical && negb (truthy (prop currentVacancy "department"))
  then assign writable uv "department" (JStr "IT")
  else mret uv.

(** Map salary patterns. *)
Definition map_salary (writable : bool) (msg : string) (currentVacancy uv : Obj)
  : completion Obj :=
  match match_first salary_at msg with
  | Some (d1, d2) =>
      if negb (truthy (current_salary_min currentVacancy))
      then assign writable uv "salaryExpectations"
             (JObj (list_to_map
                [ ("min", parseInt d1);
                  ("max", match d2 with Some d => parseInt d | None => JNull end);
                  ("currency", JStr "USD") ]))
      else mret uv
  | None => mret uv
  end.

(** Map location types. *)
Definition map_location (writable : bool) (msg : string) (currentVacancy uv : Obj)
  : completion Obj :=
  let noLocation := negb (truthy (prop currentVacancy "locationType")) in
  if includes msg "remote" && noLocation
  then u ← assign writable uv "locationType" (JStr "remote");
       assign writable u "remote" (JBool true)
  else if includes msg "hybrid" && noLocation
  then assign writable uv "locationType" (JStr "hybrid")
  else if includes msg "office" || (includes msg "on-site" && noLocation)
  then assign writable uv "locationType" (JStr "on_site")
  else mret uv.

(** Map employment type. *)
Definition map_employment (writable : bool) (msg : string) (currentVacancy uv : Obj)
  : completion Obj :=
  let noEmployment := negb (truthy (prop currentVacancy "employmentType")) in
  if includes msg "full" && includes msg "time" && noEmployment
  then assign writable uv "employmentType" (JStr "full-time")
  else if includes msg "part" && includes msg "time" && noEmployment
  then assign writable uv "employmentType" (JStr "part-time")
  else mret uv.

(** Map experience numbers. *)
Definition map_experience (writable : bool) (msg : string) (currentVacancy uv : Obj)
  : completion Obj :=
  match match_first years_at msg with
  | Some d =>
      if negb (truthy (prop currentVacancy "overallExperiencesFrom"))
      then assign writable uv "overallExperiencesFrom" (parseInt d)
      else mret uv
  | None => mret uv
  end.

(** [!currentVacancy.coreSkills || currentVacancy.coreSkills.length === 0] *)
Definition no_core_skills (currentVacancy : Obj) : completion bool :=
  let coreSkills := prop currentVacancy "coreSkills" in
  if negb (truthy coreSkills) then mret true else length_is_zero coreSkills.

(** Map common skills; the patterns are tested on the message as typed. *)
Definition map_skills (writable : bool) (text : string) (currentVacancy uv : Obj)
  : completion Obj :=
  noSkills ← no_core_skills currentVacancy;
  if noSkills : bool then
    let foundSkills :=
      map fst (List.filter (fun e => pattern_test (snd e) text) skillPatterns) in
    if (0 <? length foundSkills)%nat
    then assign writable uv "coreSkills" (JArray (map JStr foundSkills))
    else mret uv
  else mret uv.

(** [applySmartMappings(updatedVacancy, userMessage, currentVacancy)];
    [userMessage.toLowerCase()] throws when the message is not a string. *)
Definition applySmartMappings (writable : bool) (updatedVacancy : Obj)
    (userMessage : JsVal) (currentVacancy : Obj) : completion Obj :=
  match userMessage with
  | JStr text =>
      let msg := toLowerCase text in
      uv1 ← map_department writable currentVacancy updatedVacancy;
      uv2 ← map_salary writable msg currentVacancy uv1;
      uv3 ← map_location writable msg currentVacancy uv2;
      uv4 ← map_employment writable msg currentVacancy uv3;
      uv5 ← map_experience writable msg currentVacancy uv4;
      map_skills writable text currentVacancy uv5
  | _ => Throw TypeError
  end.

(** The own enumerable properties of a parsed reply, and whether a
    property can be created on it. *)
Definition own_props (v : JsVal) : Obj :=
  match v with
  | JObj o => o
  | JArr l o => list_to_map (imap (fun i x => (string_of_nat i, x)) l) ∪ o
  | JStr s =>
      list_to_map
        (imap (fun i c => (string_of_nat i, JStr (String c ""))) (String.list_ascii_of_string s))
  | _ => ∅
  end.

Definition extensible (v : JsVal) : bool :=
  match v with JObj _ | JArr _ _ => true | _ => false end.

(** The merge of [analyzeMessage]:
    [mergedVacancy = { ...currentVacancy }], then for every key of
    [updatedVacancy] whose value is neither [null] nor [undefined],
    [mergedVacancy[key] = updatedVacancy[key]]. *)
Definition mergeVacancy (currentVacancy updatedVacancy : Obj) : Obj :=
  map_fold
    (fun key v (mergedVacancy : Obj) =>
       if negb (is_null v) && negb (is_undefined v)
       then <[key := v]> mergedVacancy
       else mergedVacancy)
    currentVacancy updatedVacancy.

Record AnalysisResult := {
  success : bool;
  error : option string;
  updatedVacancy : Obj }.

(** The skip branch of [analyzeMessage]: the copy of the current vacancy
    with the next missing field set to the default. *)
Definition apply_skip (skipResponse : SkipResponse) (currentVacancy : Obj)
  : completion Obj :=
  nextField ← getNextMissingField (JObj currentVacancy);
  match nextField with
  | Some f =>
      if includes f "." then
        let segments := split_dot f in
        let parent := default "undefined" (segments !! 0%nat) in
        let child := default "undefined" (segments !! 1%nat) in
        let updated :=
          if negb (truthy (prop currentVacancy parent))
          then <[parent := JObj ∅]> currentVacancy
          else currentVacancy in
        group ← set_member (prop updated parent) child (value skipResponse);
        mret (<[parent := group]> updated)
      else mret (<[f := value skipResponse]> currentVacancy)
  | None => mret currentVacancy
  end.

(** The extraction branch, once the reply is parsed. *)
Definition apply_extraction (parsed userMessage : JsVal) (currentVacancy : Obj)
  : completion Obj :=
  match parsed with
  | JNull | JUndefined => Throw TypeError
  | _ =>
      updatedVacancy ←
        applySmartMappings (extensible parsed) (own_props parsed) userMessage currentVacancy;
      mret (mergeVacancy currentVacancy updatedVacancy)
  end.

(** [analyzeMessage(userMessage, conversationHistory, currentVacancy)];
    [skipReply] and [extraction] are what the two calls to the model give
    back if they are made. *)
Definition analyzeMessage (skipReply : completion string) (extraction : Reply)
    (userMessage : JsVal) (currentVacancy : Obj) : AnalysisResult :=
  let failed e := {| success := false; error := Some e; updatedVacancy := currentVacancy |} in
  let ok v := {| success := true; error := None; updatedVacancy := v |} in
  match checkForSkipResponse skipReply currentVacancy with
  | Some skipResponse =>
      match apply_skip skipResponse currentVacancy with
      | Normal v => ok v
      | Throw _ => failed "AI analysis error"
      end
  | None =>
      match extraction with
      | ApiFailure => failed "AI analysis error"
      | Malformed => failed "Data processing error"
      | Parsed parsed =>
          match apply_extraction parsed userMessage currentVacancy with
          | Normal v => ok v
          | Throw _ => failed "Data processing error"
          end
      end
  end.

(** *** Answering a turn *)

Definition nl : string := String (ascii_of_nat 10) EmptyString.

Record AiResponse := {
  message : string;
  isComplete : bool;
  completionPercentage : Z }.

(** [Math.round((filled / total) * 100)] for natural counts. *)
Definition percentage (filled total : Z) : Z :=
  ((2 * 100 * filled + total) / (2 * total))%Z.

Definition fallbackQuestions : list (string * string) :=
  [ ("title", "What job title are we hiring for?");
    ("department", "Which department will this role be in?");
    ("domain", "What industry or business domain is this for?");
    ("coreSkills", "What are the main skills or technologies required?");
    ("overallExperiencesFrom", "How many years of experience should candidates have?");
    ("salaryExpectations.min", "What salary range are you offering?");
    ("locationType", "Will this be remote, hybrid, or on-site work?");
    ("employmentType", "Is this a full-time or part-time position?");
    ("companyType", "What type of company is this?");
    ("secondarySkills", "Any additional nice-to-have skills?");
    ("overallExperiencesTo", "What's the maximum experience level you'd consider?");
    ("languages", "Any specific language requirements?");
    ("education", "Do you require higher education?");
    ("isTestsTask", "Will there be a test assignment?");
    ("description", "Please provide a brief description of the role and any additional details that would help candidates understand the position better.") ].

(** [generateResponse(userMessage, conversationHistory, currentVacancy)];
    [intent] and [question] are what the two calls to the model give back
    if they are made. *)
Definition generateResponse (intent question : completion string)
    (userMessage : JsVal) (currentVacancy : Obj) : completion AiResponse :=
  nextField ← getNextMissingField (JObj currentVacancy);
  let totalFields := 15%Z in
  let filledFields := (totalFields - (if nextField is Some _ then 1 else 0))%Z in
  let percent := percentage filledFields totalFields in
  hasMinimumInfo ← isVacancyComplete (JObj currentVacancy);
  match nextField with
  | None =>
      mret {| message :=
                "🎉 Perfect! We have collected all the information needed for your "
                ++ js_String (prop currentVacancy "title") ++ " position." ++ nl ++ nl
                ++ "I'll generate the complete job description now! 🚀";
              isComplete := true;
              completionPercentage := 100 |}
  | Some f =>
      let userWantsToGenerate :=
        if hasMinimumInfo && truthy userMessage then
          match intent with
          | Normal intentResponse => includes (trim (toLowerCase intentResponse)) "yes"
          | Throw _ => false
          end
        else false in
      if hasMinimumInfo && userWantsToGenerate then
        mret {| message := "Perfect! I'll create the job description now. 🚀";
                isComplete := true;
                completionPercentage := percent |}
      else
        match question with
        | Normal response =>
            mret {| message := response; isComplete := false;
                    completionPercentage := percent |}
        | Throw _ =>
            mret {| message :=
                      match table_lookup fallbackQuestions f with
                      | Some q => q
                      | None => "Tell me about the " ++ getFieldDescription f
                                ++ " for this position."
                      end;
                    isComplete := false;
                    completionPercentage := percent |}
        end
  end.

(** What [fetch] does with the webhook request: it throws, or it gives a
    response with its [ok] flag and the outcome of reading its JSON body. *)
Inductive FetchOutcome :=
| FetchThrows
| FetchResponds (ok : bool) (json : completion JsVal).

(** [sendToWebhook(vacancy, jobDescription)]: building the payload only
    reads properties of the vacancy and cannot throw; a response that is
    not [ok] is turned into an error, and every error is rethrown. *)
Definition sendToWebhook (fetch : FetchOutcome) : completion JsVal :=
  try_catch
    match fetch with
    | FetchThrows => Throw (Error "fetch failed")
    | FetchResponds ok json =>
        if negb ok then Throw (Error "Webhook responded with an error status")
        else json
    end
    (fun e => Throw e).

Record Session := {
  id : string;
  conversationHistory : list Turn;
  vacancy : Obj;
  status : string;
  webhookResponse : JsVal;
  webhookSuccess : JsVal }.

Definition new_session (sessionId : string) : Session :=
  {| id := sessionId; conversationHistory := []; vacancy := getVacancyTemplate;
     status := "collecting"; webhookResponse := JUndefined; webhookSuccess := JUndefined |}.

Definition set_vacancy (s : Session) (v : Obj) : Session :=
  {| id := id s; conversationHistory := conversationHistory s; vacancy := v;
     status := status s; webhookResponse := webhookResponse s;
     webhookSuccess := webhookSuccess s |}.

Definition push_history (s : Session) (t : Turn) : Session :=
  {| id := id s; conversationHistory := conversationHistory s ++ [t];
     vacancy := vacancy s; status := status s;
     webhookResponse := webhookResponse s; webhookSuccess := webhookSuccess s |}.

Definition set_status (s : Session) (st : string) : Session :=
  {| id := id s; conversationHistory := conversationHistory s; vacancy := vacancy s;
     status := st; webhookResponse := webhookResponse s;
     webhookSuccess := webhookSuccess s |}.

Definition set_webhook (s : Session) (response : JsVal) (ok : bool) : Session :=
  {| id := id s; conversationHistory := conversationHistory s; vacancy := vacancy s;
     status := status s; webhookResponse := response; webhookSuccess := JBool ok |}.

Definition welcomeMessage : string :=
  "👋 Hello! I'm an AI recruiter, and I'll help you create the perfect job vacancy."
  ++ nl ++ nl ++
  "Tell me about the position you're looking for. You can describe everything you know - job title, requirements, skills, experience level. I'll analyze everything and ask follow-up questions to complete the vacancy.".

Definition internal_error : Response :=
  {| res_status := 500;
     res_body := list_to_map
       [ ("error", JStr "A server error occurred. Please try again.");
         ("message", JStr "Sorry, a technical error occurred. Would you like to continue the conversation?") ] |}.

Definition json (body : list (string * JsVal)) : Response :=
  {| res_status := 200; res_body := list_to_map body |}.

(** The branch of the route that runs when the answer is complete: the
    description is generated, then handed to the webhook inside its own
    [try]; [description] is what [generateJobDescription] gives back. *)
Definition complete_turn (description : completion string) (fetch : FetchOutcome)
    (s : Session) (aiResponse : AiResponse) : Session * Response :=
  match description with
  | Normal jobDescription =>
      let '(ok, response) :=
        match sendToWebhook fetch with
        | Normal r => (true, r)
        | Throw _ => (false, JNull)
        end in
      let webhookStatus :=
        if ok then nl ++ nl ++ "✅ **Position successfully created in the system!**"
        else nl ++ nl ++ "⚠️ **Position created locally but failed to sync with main system.**" in
      let finalMessage :=
        message aiResponse ++ nl ++ nl ++ "**Generated Job Description:**" ++ nl ++ nl
        ++ jobDescription ++ webhookStatus in
      let s1 := push_history s {| role := assistant; content := JStr finalMessage |} in
      let s2 := set_webhook (set_status s1 "completed") response ok in
      (s2, json [ ("sessionId", JStr (id s2)); ("message", JStr finalMessage);
                  ("isComplete", JBool true); ("vacancy", JObj (vacancy s2));
                  ("jobDescription", JStr jobDescription);
                  ("webhookSuccess", JBool ok); ("webhookResponse", response);
                  ("completionPercentage", JNum 100) ])
  | Throw _ =>
      let s1 := push_history s {| role := assistant; content := JStr (message aiResponse) |} in
      let s2 := set_status s1 "completed" in
      (s2, json [ ("sessionId", JStr (id s2));
                  ("message", JStr (message aiResponse ++ nl ++ nl
                     ++ "⚠️ Job description generation failed. Please try again."));
                  ("isComplete", JBool true); ("vacancy", JObj (vacancy s2));
                  ("completionPercentage",
                     JNum (if (completionPercentage aiResponse =? 0)%Z then 0
                           else completionPercentage aiResponse)) ])
  end.

(** The session of a request and its key: the one the request names, or
    a new one keyed by the clock. *)
Definition open_session (now : string) (sessions : gmap string Session) (req : Request)
  : string * Session :=
  match lookup_session sessions (req_sessionId req) with
  | Some (sid, s) => (sid, s)
  | None => (now, new_session now)
  end.

(** The session after the message of the turn, if any, was analysed. *)
Definition analysed_session (skipReply : completion string) (extraction : Reply)
    (msg : JsVal) (s0 : Session) : Session :=
  if truthy msg then
    let s := push_history s0 {| role := user; content := msg |} in
    let analysisResult := analyzeMessage skipReply extraction msg (vacancy s0) in
    if success analysisResult then set_vacancy s (updatedVacancy analysisResult) else s
  else s0.

(** [POST /api/recruiter/chat].  [now] is [Date.now().toString()]; the
    other inputs are what the calls to the model, to the description
    generator and to the webhook give back if they are made. *)
Definition chat (now : string) (skipReply : completion string) (extraction : Reply)
    (intent question description : completion string) (fetch : FetchOutcome)
    (sessions : gmap string Session) (req : Request)
  : gmap string Session * Response :=
  let '(sessionId, s0) := open_session now sessions req in
  let msg := req_message req in
  if (length (conversationHistory s0) =? 0)%nat && negb (truthy msg) then
    let s1 := push_history s0 {| role := assistant; content := JStr welcomeMessage |} in
    (<[sessionId := s1]> sessions,
     json [ ("sessionId", JStr sessionId); ("message", JStr welcomeMessage);
            ("isComplete", JBool false); ("vacancy", JObj (vacancy s0));
            ("completionPercentage", JNum 0) ])
  else
    let s1 := analysed_session skipReply extraction msg s0 in
    match generateResponse intent question (if truthy msg then msg else JStr "") (vacancy s1) with
    | Throw _ => (<[sessionId := s1]> sessions, internal_error)
    | Normal aiResponse =>
        if isComplete aiResponse then
          let '(s2, response) := complete_turn description fetch s1 aiResponse in
          (<[sessionId := s2]> sessions, response)
        else
          let s2 := push_history s1 {| role := assistant; content := JStr (message aiResponse) |} in
          let s3 := set_status s2 "collecting" in
          (<[sessionId := s3]> sessions,
           json [ ("sessionId", JStr (id s3)); ("message", JStr (message aiResponse));
                  ("isComplete", JBool false); ("vacancy", JObj (vacancy s3));
                  ("completionPercentage",
                     JNum (if (completionPercentage aiResponse =? 0)%Z then 0
                           else completionPercentage aiResponse)) ])
    end.

End IntelligentRecruiterChat.

(** * The specification's own notions

    These definitions follow the words of the specification, not the code;
    the theorems compare the code with them. *)

Module Spec.

(** Data model: [null], the empty array and the empty string are the
    unfilled sentinels, and mean the same as absent; every other value,
    [false] and [0] included, is filled. *)
Definition filled (v : JsVal) : bool :=
  match v with
  | JNull | JUndefined => false
  | JArr [] _ => false
  | JStr s => negb (String.eqb s "")
  | _ => true
  end.

(** Next-field selector: a value is unfilled when it is [null], an array
    with zero elements, or an empty or whitespace-only string; for a
    boolean field only [null] and [undefined] are. *)
Definition unfilled (boolean_field : bool) (v : JsVal) : bool :=
  if boolean_field then
    match v with JNull | JUndefined => true | _ => false end
  else
    match v with
    | JNull => true
    | JArr [] _ => true
    | JStr s => String.eqb (trim s) ""
    | _ => false
    end.

Fixpoint position (l : list string) (x : string) : option nat :=
  match l with
  | [] => None
  | y :: rest => if String.eqb y x then Some 0%nat else S <$> position rest x
  end.

(** The ordered field list rotated to start at the element immediately
    after [lastAskedField], wrapping around. *)
Definition ring (fields : list (string * bool)) (lastAskedField : option string)
  : list (string * bool) :=
  match lastAskedField with
  | Some l =>
      match position (map fst fields) l with
      | Some i => rotate (S i) fields
      | None => fields
      end
  | None => fields
  end.

(** [selectNext(record, lastAskedField)]: the first unfilled field of the
    ring, [None] when no field is unfilled.  A field is its path and
    whether it is a boolean field. *)
Definition selectNext (fields : list (string * bool)) (record : JsVal)
    (lastAskedField : option string) : option string :=
  fst <$> List.find (fun f => unfilled (snd f) (valueByPath record (JStr (fst f))))
            (ring fields lastAskedField).

(** Skip detector: the default substituted for a skipped field, by kind. *)
Definition skip_default (boolean array numeric : bool) : JsVal :=
  if boolean then JBool false
  else if array then JArray []
  else if numeric then JNull
  else JStr "".

End Spec.

(** * Predicates and sample records used by the theorems *)

(** The name [n] is one [findNextFieldToFill] stops at. *)
Definition is_unfilled_at (vacancy : JsVal) (n : string) : Prop :=
  VacancyBuilder.unfilled (valueByPath vacancy (JStr n)) = true.

#[local] Instance is_unfilled_at_dec vacancy n : Decision (is_unfilled_at vacancy n).
Proof. unfold is_unfilled_at. apply _. Defined.


(** The name [g] is one [getNextMissingField] stops at. *)
Definition is_missing_at (vacancy : JsVal) (g : string) : Prop :=
  IntelligentRecruiterChat.is_missing g (valueByPath vacancy (JStr g)) = true.

#[local] Instance is_missing_at_dec vacancy g : Decision (is_missing_at vacancy g).
Proof. unfold is_missing_at. apply _. Defined.


(** The field lists of the two servers as the specification sees them: a
    path and whether the field is a boolean one. *)
Definition builder_ring : list (string * bool) :=
  map (fun f => (VacancyBuilder.name f,
                 match VacancyBuilder.type f with
                 | VacancyBuilder.TBoolean => true
                 | _ => false
                 end))
      VacancyBuilder.fields.

Definition recruiter_ring : list (string * bool) :=
  map (fun g => (g, IntelligentRecruiterChat.is_boolean_field g))
      IntelligentRecruiterChat.allFields.

(** A whitespace-only title: unfilled for the specification, filled for
    [findNextFieldToFill]. *)
Definition blank_title_vacancy : JsVal :=
  match VacancyBuilder.getVacancyTemplate with
  | JObj o => JObj (<["title" := JStr "   "]> o)
  | v => v
  end.

(** A vacancy for an entry-level position: every required field is given,
    the required experience being zero years. *)
Definition intern_vacancy : Obj :=
  <["title" := JStr "Intern"]>
  (<["department" := JStr "IT"]>
  (<["domain" := JStr "Education"]>
  (<["coreSkills" := JArray [JStr "Excel"]]>
  (<["overallExperiencesFrom" := JNum 0]>
     IntelligentRecruiterChat.getVacancyTemplate)))).

(** A vacancy whose title, department and domain are given: the pending
    field is the array of core skills. *)
Definition skills_pending_vacancy : Obj :=
  <["title" := JStr "Accountant"]>
  (<["department" := JStr "Finance"]>
  (<["domain" := JStr "Fintech"]>
     IntelligentRecruiterChat.getVacancyTemplate)).


(** Scenario D: every field of the record is filled and the webhook is
    down. *)
Definition full_vacancy : Obj :=
  list_to_map
    [ ("title", JStr "Frontend Developer"); ("department", JStr "IT");
      ("domain", JStr "SaaS"); ("coreSkills", JArray [JStr "React"]);
      ("overallExperiencesFrom", JNum 3);
      ("salaryExpectations",
        JObj (list_to_map [("min", JNum 4000); ("max", JNum 6000); ("currency", JStr "USD")]));
      ("locationType", JStr "remote"); ("employmentType", JStr "full-time");
      ("companyType", JStr "Product"); ("secondarySkills", JArray [JStr "Vue"]);
      ("overallExperiencesTo", JNum 5);
      ("languages", JArray [JStr "English"]); ("education", JBool false);
      ("isTestsTask", JBool false); ("description", JStr "") ].

Definition full_session : IntelligentRecruiterChat.Session :=
  {| IntelligentRecruiterChat.id := "42";
     IntelligentRecruiterChat.conversationHistory :=
       [ {| role := assistant; content := JStr "Anything to add?" |} ];
     IntelligentRecruiterChat.vacancy := full_vacancy;
     IntelligentRecruiterChat.status := "collecting";
     IntelligentRecruiterChat.webhookResponse := JUndefined;
     IntelligentRecruiterChat.webhookSuccess := JUndefined |}.


(** * Further definitions *)

(** The fields whose skip default no longer counts as missing: the
    boolean fields and the optional text fields. *)
Definition skip_settles (f : string) : bool :=
  IntelligentRecruiterChat.is_boolean_field f
  || IntelligentRecruiterChat.is_optional_text_field f.

(** The properties [applySmartMappings] can write. *)
Definition mapped_properties : list string :=
  [ "department"; "salaryExpectations"; "locationType"; "remote";
    "employmentType"; "overallExperiencesFrom"; "coreSkills" ].

(** Every session of the map is stored under its own id. *)
Definition keyed_by_id (sessions : gmap string IntelligentRecruiterChat.Session) : Prop :=
  forall k s, sessions !! k = Some s -> IntelligentRecruiterChat.id s = k.

(** [status === 'CLARIFICATION_NEEDED'] *)
Definition needs_clarification (st : JsVal) : bool :=
  match st with
  | JStr s => String.eqb s "CLARIFICATION_NEEDED"
  | _ => false
  end.

(** Every session of the VacancyBuilder map holds a truthy vacancy. *)
Definition vacancies_present (sessions : gmap string VacancyBuilder.Session) : Prop :=
  forall k s, sessions !! k = Some s -> truthy (VacancyBuilder.vacancy s) = true.

(** A vacancy that has a value for every field of the VacancyBuilder
    server and, besides, the lists and the salary group that its
    description prompt reads. *)
Definition two_schema_vacancy : JsVal :=
  JObj (list_to_map
    [ ("title", JStr "Nurse");
      ("department", JStr "Healthcare");
      ("location", JObj (list_to_map [("type", JStr "on_site"); ("city", JStr "Kosice")]));
      ("domain", JStr "Healthcare");
      ("salary", JObj (list_to_map [("from", JNum 1500); ("to", JNum 2000)]));
      ("experience", JObj (list_to_map [("min", JNum 2); ("max", JNum 5)]));
      ("responsibilities", JArray [JStr "Patient care"]);
      ("skills", JArray [JStr "Triage"]);
      ("secondary_skills", JArray [JStr "Paediatrics"]);
      ("soft_skills", JArray [JStr "Empathy"]);
      ("benefits", JArray [JStr "Meal vouchers"]);
      ("is_remote", JBool false);
      ("coreSkills", JArray [JStr "Triage"]);
      ("secondarySkills", JArray []);
      ("languages", JArray []);
      ("salaryExpectations", JObj (list_to_map [("min", JNum 1500); ("max", JNum 2000)])) ]).

(** A session of the IntelligentRecruiterChat server whose vacancy asks
    for no experience. *)
Definition intern_session : IntelligentRecruiterChat.Session :=
  {| IntelligentRecruiterChat.id := "7";
     IntelligentRecruiterChat.conversationHistory := [];
     IntelligentRecruiterChat.vacancy := intern_vacancy;
     IntelligentRecruiterChat.status := "collecting";
     IntelligentRecruiterChat.webhookResponse := JUndefined;
     IntelligentRecruiterChat.webhookSuccess := JUndefined |}.

(** * The other routes of the IntelligentRecruiterChat server *)

Module RecruiterRoutes.
Import IntelligentRecruiterChat.

(** [POST /api/generate-job]: [description] is what
    [generateJobDescription] gives back if it is called. *)
Definition generate_job (description : completion string)
    (sessions : gmap string Session) (sessionId : JsVal) : Response :=
  match lookup_session sessions sessionId with
  | None =>
      {| res_status := 400; res_body := {[ "error" := JStr "Session not found" ]} |}
  | Some (_, session) =>
      let failed :=
        {| res_status := 500;
           res_body := list_to_map
             [ ("error", JStr "Job description creation error");
               ("message", JStr "A technical error occurred while creating the job description.") ] |} in
      match isVacancyComplete (JObj (vacancy session)) with
      | Throw _ => failed
      | Normal false =>
          {| res_status := 400;
             res_body := list_to_map
               [ ("error", JStr "Insufficient data to create vacancy");
                 ("message", JStr "Please fill in the required fields: job title, department, domain, skills, and work experience.") ] |}
      | Normal true =>
          match description with
          | Throw _ => failed
          | Normal jobDescription =>
              {| res_status := 200;
                 res_body := list_to_map
                   [ ("success", JBool true); ("vacancy", JObj (vacancy session));
                     ("jobDescription", JStr jobDescription);
                     ("message", JStr "Job description successfully created!") ] |}
          end
      end
  end.

(** The test of the filter of [GET /api/vacancy/:sessionId]:
    [value !== null && value !== undefined &&
     (!Array.isArray(value) || value.length > 0)] *)
Definition counted (value : JsVal) : bool :=
  negb (is_null value) && negb (is_undefined value)
  && match value with JArr l _ => (0 <? length l)%nat | _ => true end.

(** [fields.filter(field => ...).length] *)
Fixpoint count_filled (vacancy : JsVal) (fs : list (string * FieldType)) : completion nat :=
  match fs with
  | [] => mret O
  | field :: rest =>
      value ← getValueByPath vacancy (JStr field.1);
      n ← count_filled vacancy rest;
      mret (if counted value then S n else n)
  end.

Definition turn_json (t : Turn) : JsVal :=
  JObj (list_to_map
    [ ("role", JStr (match role t with user => "user" | assistant => "assistant" end));
      ("content", content t) ]).

(** [GET /api/vacancy/:sessionId]; the route has no handler of its own
    for a throw, which the framework answers with status 500. *)
Definition vacancy_info (sessions : gmap string Session) (sessionId : string) : Response :=
  match lookup_session sessions (JStr sessionId) with
  | None =>
      {| res_status := 404; res_body := {[ "error" := JStr "Session not found" ]} |}
  | Some (_, session) =>
      match count_filled (JObj (vacancy session)) vacancyFields,
            isVacancyComplete (JObj (vacancy session)) with
      | Normal filledFields, Normal complete =>
          {| res_status := 200;
             res_body := list_to_map
               [ ("vacancy", JObj (vacancy session));
                 ("isComplete", JBool complete);
                 ("completionPercentage",
                    JNum (percentage (Z.of_nat filledFields)
                            (Z.of_nat (length vacancyFields))));
                 ("conversationHistory",
                    JArray (map turn_json (conversationHistory session))) ] |}
      | _, _ => {| res_status := 500; res_body := ∅ |}
      end
  end.

End RecruiterRoutes.
(** * Theorems *)

(** ** getValueByPath *)

Lemma get_member_truthy acc part :
  truthy acc = true -> returns (get_member acc part).
Proof.
  unfold returns. destruct acc; simpl; try discriminate; intros _; eauto.
  - destruct (String.eqb part "length"); eauto.
    destruct (parse_index part); eauto.
  - destruct (String.eqb part "length"); eauto.
    destruct (parse_index part); eauto.
Qed.

Lemma path_step_returns acc part : returns (path_step acc part).
Proof.
  unfold path_step. destruct (truthy acc) eqn:Ht; [|eexists; reflexivity].
  destruct (get_member_truthy acc part Ht) as [x Hx]. rewrite Hx. simpl.
  destruct (is_undefined x); eexists; reflexivity.
Qed.

Lemma reduce_path_returns parts : forall obj, returns (reduce path_step parts obj).
Proof.
  induction parts as [|p parts IH]; intros obj; simpl.
  - eexists; reflexivity.
  - destruct (path_step_returns obj p) as [acc ->]. simpl. apply IH.
Qed.




Lemma getValueByPath_returns obj path : returns (getValueByPath obj path).
Proof.
  unfold getValueByPath.
  destruct (negb (truthy path) || negb (truthy obj)).
  - eexists; reflexivity.
  - apply reduce_path_returns.
Qed.

Lemma getValueByPath_value obj path :
  getValueByPath obj path = Normal (valueByPath obj path).
Proof.
  unfold valueByPath. destruct (getValueByPath_returns obj path) as [v ->]. reflexivity.
Qed.



Example getValueByPath_nested :
  getValueByPath (JObj {[ "location" := JObj {[ "city" := JStr "Kyiv" ]} ]}) (JStr "location.city")
  = Normal (JStr "Kyiv").
Proof. reflexivity. Qed.

Example getValueByPath_null_group :
  getValueByPath (JObj {[ "location" := JNull ]}) (JStr "location.city") = Normal JUndefined.
Proof. reflexivity. Qed.

Example getValueByPath_array_length :
  getValueByPath (JObj {[ "skills" := JArray [JStr "React"] ]}) (JStr "skills.length")
  = Normal (JNum 1).
Proof. reflexivity. Qed.

(** ** Next-field selection *)

Section Selection.
Import VacancyBuilder.

Lemma indexOf_bounds (l : list string) x :
  (-1 <= indexOf l x < Z.of_nat (length l))%Z.
Proof.
  induction l as [|y l IH]; simpl; [lia|].
  destruct (String.eqb y x); [lia|].
  destruct (indexOf l x <? 0)%Z eqn:E; lia.
Qed.

Lemma indexOf_first (l : list string) x k :
  l !! k = Some x -> (forall j, j < k -> l !! j <> Some x) ->
  indexOf l x = Z.of_nat k.
Proof.
  revert k. induction l as [|y l IH]; intros k Hk Hfirst; [discriminate|].
  simpl. destruct (String.eqb_spec y x) as [->|Hne].
  - destruct k as [|k]; [reflexivity|].
    exfalso. apply (Hfirst 0); [lia | reflexivity].
  - destruct k as [|k]; simpl in Hk; [congruence|].
    rewrite (IH k Hk).
    + destruct (Z.of_nat k <? 0)%Z eqn:E; lia.
    + intros j Hj. apply (Hfirst (S j)). lia.
Qed.

Lemma NoDup_first (l : list string) x k :
  NoDup l -> l !! k = Some x -> forall j, j < k -> l !! j <> Some x.
Proof.
  intros Hnd Hk j Hj Hx.
  pose proof (NoDup_lookup l j k x Hnd Hx Hk). lia.
Qed.

(** The search order built from the two slices is the list of names
    rotated past the last asked field. *)
Lemma searchOrder_rotate (names : list string) (i : Z) :
  (-1 <= i < Z.of_nat (length names))%Z ->
  (slice_from names (i + 1) ++ slice names 0 (i + 1))%list
  = rotate (Z.to_nat (i + 1)) names.
Proof.
  intros Hi. unfold slice_from, slice, slice_index, rotate.
  replace (i + 1 <? 0)%Z with false by lia. simpl.
  rewrite Nat.sub_0_r, drop_0.
  rewrite (Nat.min_l (Z.to_nat (i + 1))) by lia.
  destruct (decide (Z.to_nat (i + 1) = length names)) as [Heq|Hne].
  - rewrite Heq, Nat.Div0.mod_same.
    rewrite drop_all, take_ge by lia. rewrite drop_0. simpl.
    by rewrite app_nil_r.
  - rewrite Nat.mod_small by lia. reflexivity.
Qed.

(** The loop returns the descriptor of the first unfilled name. *)
Lemma search_first fs vacancy (order : list string) :
  search fs vacancy order =
  Normal (match list_find (is_unfilled_at vacancy) order with
          | Some (_, n) => List.find (fun f => String.eqb (name f) n) fs
          | None => None
          end).
Proof.
  induction order as [|n order IH]; simpl; [reflexivity|].
  rewrite getValueByPath_value. simpl.
  destruct (decide (is_unfilled_at vacancy n)) as [Hy|Hn]; unfold is_unfilled_at in *.
  - rewrite Hy. reflexivity.
  - destruct (unfilled (valueByPath vacancy (JStr n))); [congruence|].
    rewrite IH. destruct (list_find _ order) as [[? ?]|]; reflexivity.
Qed.

Lemma find_by_name fs n :
  n ∈ map name fs ->
  exists f, List.find (fun f => String.eqb (name f) n) fs = Some f /\ name f = n /\ f ∈ fs.
Proof.
  induction fs as [|g fs IH]; simpl; intros Hin.
  - by apply elem_of_nil in Hin.
  - destruct (String.eqb_spec (name g) n) as [Heq|Hne].
    + exists g. split; [reflexivity|]. split; [exact Heq | constructor].
    + apply elem_of_cons in Hin as [Hin|Hin]; [congruence|].
      destruct (IH Hin) as (f & Hf & Hn & Hm). exists f.
      split; [exact Hf|]. split; [exact Hn | by constructor].
Qed.

Lemma lastIndexOf_bounds names last :
  (-1 <= lastIndexOf names last < Z.of_nat (length names))%Z.
Proof.
  unfold lastIndexOf. destruct last as [l|].
  - destruct (negb (String.eqb l "")); [apply indexOf_bounds|lia].
  - lia.
Qed.

(** [findNextFieldToFill] over any field list: the first name of the ring
    whose value is [null], an empty array or the empty string. *)
Lemma findNextFieldToFill_ring fs vacancy last :
  let names := map name fs in
  let order := rotate (Z.to_nat (lastIndexOf names last + 1)) names in
  exists r, findNextFieldToFill fs vacancy last = Normal r /\
    match r with
    | Some f =>
        f ∈ fs /\
        exists i, order !! i = Some (name f) /\
          unfilled (valueByPath vacancy (JStr (name f))) = true /\
          forall j n, j < i -> order !! j = Some n ->
            unfilled (valueByPath vacancy (JStr n)) = false
    | None =>
        forall n, n ∈ names -> unfilled (valueByPath vacancy (JStr n)) = false
    end.
Proof.
  intros names order. unfold findNextFieldToFill. fold names.
  rewrite searchOrder_rotate by apply lastIndexOf_bounds. fold order.
  rewrite search_first.
  destruct (list_find (is_unfilled_at vacancy) order) as [[i n]|] eqn:Hfind.
  - apply list_find_Some in Hfind as (Hi & Hn & Hbefore).
    assert (n ∈ names) as Hin.
    { apply (elem_of_rotate names (Z.to_nat (lastIndexOf names last + 1))).
      eapply list_elem_of_lookup_2. exact Hi. }
    destruct (find_by_name fs n Hin) as (f & Hf & Hname & Hmem).
    exists (Some f). split; [by rewrite Hf|]. split; [exact Hmem|].
    exists i. rewrite Hname. split; [exact Hi|]. split; [exact Hn|].
    intros j m Hj Hm. specialize (Hbefore j m Hm Hj).
    unfold is_unfilled_at in Hbefore. by destruct (unfilled _).
  - exists None. split; [reflexivity|].
    intros n Hin. apply list_find_None in Hfind.
    rewrite Forall_forall in Hfind.
    assert (n ∈ order) as Hin' by (by apply elem_of_rotate).
    specialize (Hfind n Hin'). unfold is_unfilled_at in Hfind.
    by destruct (unfilled _).
Qed.

Lemma lastIndexOf_at names l k :
  l <> "" -> names !! k = Some l -> (forall j, j < k -> names !! j <> Some l) ->
  Z.to_nat (lastIndexOf names (Some l) + 1) = S k.
Proof.
  intros Hl Hk Hfirst. unfold lastIndexOf.
  destruct (String.eqb_spec l "") as [|_]; [congruence|]. simpl.
  rewrite (indexOf_first names l k Hk Hfirst). lia.
Qed.

End Selection.

Section MissingField.
Import IntelligentRecruiterChat.

Lemma missing_loop_first vacancy (fs : list string) :
  missing_loop vacancy fs = Normal (snd <$> list_find (is_missing_at vacancy) fs).
Proof.
  induction fs as [|g fs IH]; simpl; [reflexivity|].
  rewrite getValueByPath_value. simpl.
  destruct (decide (is_missing_at vacancy g)) as [Hy|Hn]; unfold is_missing_at in *.
  - rewrite Hy. reflexivity.
  - destruct (is_missing g (valueByPath vacancy (JStr g))); [congruence|].
    rewrite IH. destruct (list_find _ fs) as [[? ?]|]; reflexivity.
Qed.

(** [getNextMissingField]: the first name of its fixed list that is
    missing; there is no last asked field and no rotation. *)
Lemma getNextMissingField_first vacancy :
  exists r, getNextMissingField vacancy = Normal r /\
    match r with
    | Some g =>
        exists i, allFields !! i = Some g /\
          is_missing g (valueByPath vacancy (JStr g)) = true /\
          forall j h, j < i -> allFields !! j = Some h ->
            is_missing h (valueByPath vacancy (JStr h)) = false
    | None =>
        forall h, h ∈ allFields -> is_missing h (valueByPath vacancy (JStr h)) = false
    end.
Proof.
  unfold getNextMissingField. rewrite missing_loop_first.
  destruct (list_find (is_missing_at vacancy) allFields) as [[i g]|] eqn:Hfind.
  - apply list_find_Some in Hfind as (Hi & Hg & Hbefore).
    exists (Some g). split; [reflexivity|]. exists i.
    split; [exact Hi|]. split; [exact Hg|].
    intros j h Hj Hh. specialize (Hbefore j h Hh Hj).
    unfold is_missing_at in Hbefore. by destruct (is_missing h _).
  - exists None. split; [reflexivity|].
    intros h Hin. apply list_find_None in Hfind. rewrite Forall_forall in Hfind.
    specialize (Hfind h Hin). unfold is_missing_at in Hfind.
    by destruct (is_missing h _).
Qed.

Lemma getNextMissingField_returns vacancy : returns (getNextMissingField vacancy).
Proof. destruct (getNextMissingField_first vacancy) as (r & -> & _). by exists r. Qed.

(** What counts as missing, by the class of the field. *)
Lemma is_missing_cases g v :
  is_missing g v =
  if is_boolean_field g || is_optional_text_field g then nullish v
  else nullish v
       || match v with JArr l _ => (length l =? 0)%nat | _ => false end
       || match v with JNaN => true | _ => false end
       || match v with JStr s => String.eqb (trim s) "" | _ => false end.
Proof.
  unfold is_missing, isEmpty, is_blank_string, nullish.
  destruct (is_boolean_field g); [reflexivity|].
  destruct (is_optional_text_field g); reflexivity.
Qed.

End MissingField.

(** C3, as stated, fails.  On a vacancy whose title is whitespace only,
    [findNextFieldToFill] passes over the title, which the stated test
    calls unfilled; and [getNextMissingField] takes no last asked field,
    so after "title" was asked on an empty vacancy it returns "title"
    again where the ring search gives "department". *)
Lemma selectNext_as_stated_fails :
  (exists f,
      VacancyBuilder.findNextFieldToFill VacancyBuilder.fields blank_title_vacancy None
        = Normal (Some f) /\
      VacancyBuilder.name f = "department" /\
      Spec.selectNext builder_ring blank_title_vacancy None = Some "title") /\
  (IntelligentRecruiterChat.getNextMissingField
     (JObj IntelligentRecruiterChat.getVacancyTemplate) = Normal (Some "title") /\
   Spec.selectNext recruiter_ring (JObj IntelligentRecruiterChat.getVacancyTemplate)
     (Some "title") = Some "department").
Proof.
  split.
  - eexists. split; [vm_compute; reflexivity|]. split; vm_compute; reflexivity.
  - split; vm_compute; reflexivity.
Qed.

(** C3, amended.  [findNextFieldToFill] scans the field names rotated to
    start just after the last asked field (from the start when there is
    none or it is unknown) and returns the first field whose value is
    [null], an empty array or the empty string, [null] when there is none;
    a whitespace-only string, [undefined] and [false] count as filled.
    [getNextMissingField] scans its fixed list from the start, without a
    last asked field, and returns the first field that is missing: [null]
    or [undefined] for the boolean fields and for the description, and
    for the others also an empty array, [NaN] and an empty or
    whitespace-only string. *)
Theorem next_field_selection :
  (forall fs vacancy last,
     let names := map VacancyBuilder.name fs in
     let order := rotate (Z.to_nat (VacancyBuilder.lastIndexOf names last + 1)) names in
     (forall l k, last = Some l -> l <> "" -> names !! k = Some l ->
                  (forall j, j < k -> names !! j <> Some l) ->
                  order = rotate (S k) names) /\
     exists r, VacancyBuilder.findNextFieldToFill fs vacancy last = Normal r /\
       match r with
       | Some f =>
           f ∈ fs /\
           exists i, order !! i = Some (VacancyBuilder.name f) /\
             VacancyBuilder.unfilled (valueByPath vacancy (JStr (VacancyBuilder.name f))) = true /\
             forall j n, j < i -> order !! j = Some n ->
               VacancyBuilder.unfilled (valueByPath vacancy (JStr n)) = false
       | None =>
           forall n, n ∈ names ->
             VacancyBuilder.unfilled (valueByPath vacancy (JStr n)) = false
       end) /\
  (forall vacancy,
     exists r, IntelligentRecruiterChat.getNextMissingField vacancy = Normal r /\
       match r with
       | Some g =>
           exists i, IntelligentRecruiterChat.allFields !! i = Some g /\
             IntelligentRecruiterChat.is_missing g (valueByPath vacancy (JStr g)) = true /\
             forall j h, j < i -> IntelligentRecruiterChat.allFields !! j = Some h ->
               IntelligentRecruiterChat.is_missing h (valueByPath vacancy (JStr h)) = false
       | None =>
           forall h, h ∈ IntelligentRecruiterChat.allFields ->
             IntelligentRecruiterChat.is_missing h (valueByPath vacancy (JStr h)) = false
       end).
Proof.
  split.
  - intros fs vacancy last names order. split.
    + intros l k -> Hl Hk Hfirst. unfold order.
      by rewrite (lastIndexOf_at names l k Hl Hk Hfirst).
    + apply findNextFieldToFill_ring.
  - apply getNextMissingField_first.
Qed.

Lemma next_field_selection_witness :
  exists r,
    VacancyBuilder.findNextFieldToFill VacancyBuilder.fields
      VacancyBuilder.getVacancyTemplate (Some "title") = Normal r /\
    VacancyBuilder.name <$> r = Some "department".
Proof.
  destruct (proj1 next_field_selection VacancyBuilder.fields
              VacancyBuilder.getVacancyTemplate (Some "title")) as (_ & r & Hr & _).
  exists r. split; [exact Hr|].
  vm_compute in Hr. injection Hr as <-. reflexivity.
Defined.

(** ** Ring coverage *)

Section Ring.
Import VacancyBuilder.

Variable fs : list Field.
Variable vacancy : JsVal.
Let names := map name fs.

Hypothesis names_distinct : NoDup names.
Hypothesis names_nonempty : forall n, n ∈ names -> n <> "".
Hypothesis all_unfilled :
  forall n, n ∈ names -> unfilled (valueByPath vacancy (JStr n)) = true.




Lemma rotate_perm {A} n (l : list A) : rotate n l ≡ₚ l.
Proof.
  unfold rotate. rewrite Permutation_app_comm. by rewrite take_drop.
Qed.


End Ring.





Example ring_from_city :
  VacancyBuilder.ask VacancyBuilder.fields VacancyBuilder.getVacancyTemplate
    (Some "location.city") 15
  = Normal [ "domain"; "salary.from"; "salary.to"; "experience.min"; "experience.max";
             "responsibilities"; "skills"; "secondary_skills"; "soft_skills"; "benefits";
             "is_remote"; "title"; "department"; "location.type"; "location.city" ].
Proof. vm_compute. reflexivity. Qed.

(** ** A turn that needs clarification (VacancyBuilder) *)

Section Clarification.
Import VacancyBuilder.

Lemma get_member_defined v k1 k2 x :
  get_member v k1 = Normal x -> returns (get_member v k2).
Proof.
  unfold returns. destruct v; simpl; try discriminate; intros _; eauto.
  - destruct (String.eqb k2 "length"); eauto. destruct (parse_index k2); eauto.
  - destruct (String.eqb k2 "length"); eauto. destruct (parse_index k2); eauto.
Qed.

Lemma checked_reply_defined reply r k :
  checked_reply reply = Normal r -> returns (get_member r k).
Proof.
  destruct reply as [| |v]; simpl; try discriminate.
  destruct (get_member v "status") as [st|] eqn:Hst; simpl; [|discriminate].
  destruct (negb (truthy st)); [discriminate|].
  destruct (get_member v "updatedVacancy") as [uv|]; simpl; [|discriminate].
  destruct (negb (truthy uv)); [discriminate|].
  intros [= <-]. exact (get_member_defined v "status" k st Hst).
Qed.


End Clarification.




(** ** Completion check (IntelligentRecruiterChat) *)

Section Completion.
Import IntelligentRecruiterChat.

Lemma complete_loop_forallb vacancy (fs : list string) :
  complete_loop vacancy fs =
  Normal (forallb (fun f => negb (missing_required (valueByPath vacancy (JStr f)))) fs).
Proof.
  induction fs as [|f fs IH]; simpl; [reflexivity|].
  rewrite getValueByPath_value. simpl.
  destruct (missing_required (valueByPath vacancy (JStr f))); simpl; [reflexivity | exact IH].
Qed.

(** [isVacancyComplete] is true exactly when each of the five required
    fields holds a truthy value that is not an empty array. *)
Lemma isVacancyComplete_required vacancy :
  isVacancyComplete vacancy = Normal true <->
  forall f, f ∈ requiredFields ->
    truthy (valueByPath vacancy (JStr f)) = true /\
    Spec.filled (valueByPath vacancy (JStr f)) = true.
Proof.
  unfold isVacancyComplete. rewrite complete_loop_forallb.
  generalize requiredFields as fs. intros fs. split.
  - intros [= H] f Hf. rewrite forallb_forall in H.
    apply list_elem_of_In in Hf. specialize (H f Hf).
    unfold missing_required in H.
    destruct (valueByPath vacancy (JStr f)) as [| | | | |s|l o|o]; simpl in *;
      try discriminate; try (split; [assumption || reflexivity | reflexivity]).
    + split; [by destruct b | reflexivity].
    + split; [by destruct (n =? 0)%Z | reflexivity].
    + split; by destruct (String.eqb s "").
    + split; [reflexivity|]. by destruct l.
  - intros H. f_equal. apply forallb_forall. intros f Hf.
    apply list_elem_of_In in Hf. destruct (H f Hf) as [Ht Hfill].
    unfold missing_required. rewrite Ht. simpl.
    destruct (valueByPath vacancy (JStr f)) as [| | | | |s|l o|o]; simpl in *;
      try reflexivity; try discriminate.
    by destruct l.
Qed.

(** It looks at the required fields only. *)
Lemma isVacancyComplete_optional_independent v1 v2 :
  (forall f, f ∈ requiredFields ->
     valueByPath v1 (JStr f) = valueByPath v2 (JStr f)) ->
  isVacancyComplete v1 = isVacancyComplete v2.
Proof.
  intros H. unfold isVacancyComplete. rewrite !complete_loop_forallb. f_equal.
  induction requiredFields as [|f fs IH]; simpl; [reflexivity|].
  rewrite H by constructor. f_equal. apply IH.
  intros g Hg. apply H. by constructor.
Qed.

Lemma isVacancyComplete_returns vacancy : returns (isVacancyComplete vacancy).
Proof. unfold isVacancyComplete. rewrite complete_loop_forallb. eexists; reflexivity. Qed.

End Completion.

(** C2.  With zero years of experience every required field is filled
    (the next-field selector agrees: it moves on to the salary), yet
    [isVacancyComplete] answers false, because it tests [!value]. *)
Theorem isVacancyComplete_zero_experience :
  Forall (fun f => Spec.filled (valueByPath (JObj intern_vacancy) (JStr f)) = true)
    IntelligentRecruiterChat.requiredFields /\
  IntelligentRecruiterChat.getNextMissingField (JObj intern_vacancy)
    = Normal (Some "salaryExpectations.min") /\
  IntelligentRecruiterChat.isVacancyComplete (JObj intern_vacancy) = Normal false.
Proof.
  split; [|split]; [| vm_compute; reflexivity ..].
  repeat constructor; vm_compute; reflexivity.
Qed.

(** ** Skip defaults *)

Section SkipDefaults.
Import IntelligentRecruiterChat.

(** The default of every field that can be pending. *)
Lemma skip_default_table :
  map (fun f => (f, skip_default (Some f))) allFields =
  [ ("title", JStr ""); ("department", JStr ""); ("domain", JStr "");
    ("coreSkills", JStr ""); ("overallExperiencesFrom", JStr "");
    ("salaryExpectations.min", JNull); ("locationType", JStr "");
    ("employmentType", JStr ""); ("companyType", JStr "");
    ("secondarySkills", JArray []); ("overallExperiencesTo", JNull);
    ("languages", JArray []); ("education", JBool false);
    ("isTestsTask", JBool false); ("description", JStr "") ].
Proof. vm_compute. reflexivity. Qed.

Lemma checkForSkipResponse_Some reply current sk :
  checkForSkipResponse reply current = Some sk ->
  exists response,
    reply = Normal response /\
    includes (trim (toLowerCase response)) "skip" = true /\
    getNextMissingField (JObj current) = Normal (field sk) /\
    value sk = skip_default (field sk).
Proof.
  unfold checkForSkipResponse.
  destruct (getNextMissingField_returns (JObj current)) as [nf ->]. simpl.
  destruct reply as [response|e]; simpl; [|discriminate].
  destruct (includes (trim (toLowerCase response)) "skip") eqn:Hskip; simpl; [|discriminate].
  intros [= <-]. exists response. repeat split; [exact Hskip|reflexivity..].
Qed.

End SkipDefaults.

(** C6.  The pending field is [coreSkills], an array field; on a skip it
    receives the empty string, not the empty sequence.  The required
    number [overallExperiencesFrom] receives the empty string as well. *)
Theorem skip_default_of_core_skills :
  IntelligentRecruiterChat.getNextMissingField (JObj skills_pending_vacancy)
    = Normal (Some "coreSkills") /\
  (("coreSkills", IntelligentRecruiterChat.TArray)
     ∈ IntelligentRecruiterChat.vacancyFields) /\
  IntelligentRecruiterChat.checkForSkipResponse (Normal "skip") skills_pending_vacancy
    = Some {| IntelligentRecruiterChat.value := JStr "";
              IntelligentRecruiterChat.field := Some "coreSkills" |} /\
  Spec.skip_default false true false = JArray [] /\
  (("overallExperiencesFrom", IntelligentRecruiterChat.TNumber)
     ∈ IntelligentRecruiterChat.vacancyFields) /\
  IntelligentRecruiterChat.skip_default (Some "overallExperiencesFrom") = JStr "".
Proof.
  repeat split; try (vm_compute; reflexivity).
  - apply list_elem_of_In. vm_compute. tauto.
  - apply list_elem_of_In. vm_compute. tauto.
Qed.

(** ** Paths into a record *)

Lemma split_dot_cons (p : string) : exists h t, split_dot p = h :: t.
Proof.
  induction p as [|c p IH]; simpl; [eauto|].
  destruct (Ascii.eqb c "."); [eauto|].
  destruct IH as (h & t & ->). eauto.
Qed.

Lemma split_dot_root (p : string) : exists t, split_dot p = root p :: t.
Proof.
  unfold root. destruct (split_dot_cons p) as (h & t & ->). simpl. eauto.
Qed.

Lemma split_dot_nodot (f : string) : includes f "." = false -> split_dot f = [f].
Proof.
  induction f as [|c f IH]; [reflexivity|].
  cbn [includes split_dot String.prefix].
  destruct (Ascii.eqb_spec c ".") as [->|Hc].
  - destruct (ascii_dec "." ".") as [_|Hne]; [|congruence].
    destruct f; discriminate.
  - destruct (ascii_dec "." c) as [Heq|_]; [congruence|].
    simpl. intros H. rewrite (IH H). reflexivity.
Qed.

Lemma truthy_path (p : string) : p <> "" -> truthy (JStr p) = true.
Proof. intros H. simpl. by destruct (String.eqb_spec p ""). Qed.

(** The value at a path depends on the record through the property at
    the root of the path only. *)
Lemma valueByPath_root (o1 o2 : Obj) (p : string) :
  prop o1 (root p) = prop o2 (root p) ->
  valueByPath (JObj o1) (JStr p) = valueByPath (JObj o2) (JStr p).
Proof.
  intros H. unfold valueByPath, getValueByPath.
  change (truthy (JObj o1)) with true. change (truthy (JObj o2)) with true.
  destruct (negb (truthy (JStr p)) || negb true); [reflexivity|].
  cbn [js_String]. destruct (split_dot_root p) as [t ->]. simpl.
  unfold path_step at 2 4. simpl. rewrite H. reflexivity.
Qed.

Lemma valueByPath_top (o : Obj) (f : string) (v : JsVal) :
  f <> "" -> includes f "." = false -> is_undefined v = false ->
  valueByPath (JObj (<[f := v]> o)) (JStr f) = v.
Proof.
  intros Hf Hdot Hv. unfold valueByPath, getValueByPath.
  rewrite (truthy_path f Hf). simpl. rewrite (split_dot_nodot f Hdot). simpl.
  unfold path_step. simpl. unfold prop. rewrite lookup_insert_eq. simpl.
  rewrite Hv. reflexivity.
Qed.

Lemma root_nodot (f : string) : includes f "." = false -> root f = f.
Proof. intros H. unfold root. by rewrite (split_dot_nodot f H). Qed.

(** Two values that answer alike for the member [c] lead to the same
    value along any path that goes on with [c]. *)
Lemma reduce_path_step_eq a b c rest :
  path_step a c = path_step b c ->
  reduce path_step (c :: rest) a = reduce path_step (c :: rest) b.
Proof. intros H. simpl. by rewrite H. Qed.

(** ** The skip branch of the merge *)

Section Skip.
Import IntelligentRecruiterChat.

Lemma next_missing_in_allFields vacancy f :
  getNextMissingField vacancy = Normal (Some f) -> f ∈ allFields.
Proof.
  intros H. destruct (getNextMissingField_first vacancy) as (r & Hr & Hspec).
  rewrite H in Hr. injection Hr as <-.
  destruct Hspec as (i & Hi & _). eapply list_elem_of_lookup_2. exact Hi.
Qed.

Lemma allFields_dotted f :
  f ∈ allFields -> includes f "." = true -> f = "salaryExpectations.min".
Proof.
  unfold allFields. intros Hin.
  repeat (apply elem_of_cons in Hin as [->|Hin];
          [vm_compute; first [discriminate | reflexivity]|]).
  by apply elem_of_nil in Hin.
Qed.

Lemma allFields_nonempty f : f ∈ allFields -> f <> "".
Proof.
  unfold allFields. intros Hin ->.
  repeat (apply elem_of_cons in Hin as [Hin|Hin]; [discriminate|]).
  by apply elem_of_nil in Hin.
Qed.

Lemma skip_default_defined nf : is_undefined (skip_default nf) = false.
Proof.
  unfold skip_default. destruct nf as [f|]; [|reflexivity].
  repeat match goal with |- context [if ?b then _ else _] => destruct b end; reflexivity.
Qed.

(** Writing the member [min] of a salary group that is an object, an
    array or absent. *)
Lemma skip_group (g v : JsVal) :
  (truthy g = true -> extensible g = true) -> is_undefined v = false ->
  exists group',
    set_member (if negb (truthy g) then JObj ∅ else g) "min" v = Normal group' /\
    is_undefined group' = false /\
    path_step group' "min" = Normal v /\
    forall c, c <> "min" -> path_step group' c = path_step g c.
Proof.
  intros Hshape Hv.
  destruct (truthy g) eqn:Ht; simpl.
  - specialize (Hshape eq_refl).
    destruct g as [| | | | | |l o|o]; try discriminate Hshape.
    + exists (JArr l (<["min" := v]> o)). split; [reflexivity|]. split; [reflexivity|].
      split.
      * unfold path_step. simpl. unfold prop. rewrite lookup_insert_eq. simpl.
        by rewrite Hv.
      * intros c Hc. unfold path_step. simpl.
        destruct (String.eqb c "length"); [reflexivity|].
        unfold prop. rewrite lookup_insert_ne by congruence. reflexivity.
    + exists (JObj (<["min" := v]> o)). split; [reflexivity|]. split; [reflexivity|].
      split.
      * unfold path_step. simpl. unfold prop. rewrite lookup_insert_eq. simpl.
        by rewrite Hv.
      * intros c Hc. unfold path_step. simpl.
        unfold prop. rewrite lookup_insert_ne by congruence. reflexivity.
  - exists (JObj (<["min" := v]> ∅)). split; [reflexivity|]. split; [reflexivity|].
    split.
    + unfold path_step. simpl. unfold prop. rewrite lookup_insert_eq. simpl.
      by rewrite Hv.
    + intros c Hc. unfold path_step. rewrite Ht. simpl.
      unfold prop. rewrite lookup_insert_ne by congruence. reflexivity.
Qed.

Lemma path_step_prop (o : Obj) k : path_step (JObj o) k = Normal (prop o k).
Proof.
  unfold path_step. simpl. by destruct (prop o k).
Qed.

(** What the skip branch makes of the record. *)
Lemma apply_skip_spec (sk : SkipResponse) (current : Obj) :
  getNextMissingField (JObj current) = Normal (field sk) ->
  value sk = skip_default (field sk) ->
  (truthy (prop current "salaryExpectations") = true ->
   extensible (prop current "salaryExpectations") = true) ->
  exists updated,
    apply_skip sk current = Normal updated /\
    match field sk with
    | Some f =>
        valueByPath (JObj updated) (JStr f) = value sk /\
        (forall p, root p <> root f ->
           valueByPath (JObj updated) (JStr p) = valueByPath (JObj current) (JStr p)) /\
        (forall p parent child c rest,
           split_dot f = [parent; child] -> split_dot p = parent :: c :: rest ->
           c <> child ->
           valueByPath (JObj updated) (JStr p) = valueByPath (JObj current) (JStr p))
    | None => updated = current
    end.
Proof.
  intros Hnext Hval Hshape. unfold apply_skip. rewrite Hnext. simpl.
  destruct (field sk) as [f|] eqn:Hfield; [|eauto].
  pose proof (next_missing_in_allFields _ _ Hnext) as Hin.
  pose proof (skip_default_defined (Some f)) as Hdef. rewrite <- Hval in Hdef.
  destruct (includes f ".") eqn:Hdot.
  - (* the nested field salaryExpectations.min *)
    pose proof (allFields_dotted f Hin Hdot) as ->.
    change (split_dot "salaryExpectations.min") with ["salaryExpectations"; "min"].
    cbn [lookup list_lookup default from_option Datatypes.id].
    set (g := prop current "salaryExpectations") in *.
    destruct (skip_group g (value sk) Hshape Hdef) as (group' & Hset & Hundef & Hmin & Hother).
    assert (prop (if negb (truthy g) then <["salaryExpectations" := JObj ∅]> current
                  else current) "salaryExpectations"
            = if negb (truthy g) then JObj ∅ else g) as ->.
    { destruct (negb (truthy g)); [|reflexivity].
      unfold prop. by rewrite lookup_insert_eq. }
    rewrite Hset. simpl. eexists. split; [reflexivity|].
    assert (forall rest : list string,
              reduce path_step ("salaryExpectations" :: rest)
                (JObj (<["salaryExpectations" := group']>
                   (if negb (truthy g) then <["salaryExpectations" := JObj ∅]> current
                    else current)))
              = reduce path_step rest group') as Hfirst.
    { intros rest. cbn [reduce]. rewrite path_step_prop.
      unfold prop. rewrite lookup_insert_eq. reflexivity. }
    assert (forall rest : list string,
              reduce path_step ("salaryExpectations" :: rest) (JObj current)
              = reduce path_step rest g) as Hfirst0.
    { intros rest. cbn [reduce]. rewrite path_step_prop. reflexivity. }
    split; [|split].
    + unfold valueByPath, getValueByPath.
      change (split_dot (js_String (JStr "salaryExpectations.min")))
        with ["salaryExpectations"; "min"].
      cbn [truthy negb orb String.eqb Ascii.eqb Bool.eqb].
      rewrite Hfirst. cbn [reduce]. rewrite Hmin. reflexivity.
    + intros p Hp. apply valueByPath_root.
      change (root "salaryExpectations.min") with "salaryExpectations" in Hp.
      unfold prop. rewrite lookup_insert_ne by congruence.
      destruct (negb (truthy g)); [|reflexivity].
      by rewrite lookup_insert_ne by congruence.
    + intros p parent child c rest [= <- <-] Hp Hc.
      unfold valueByPath, getValueByPath. cbn [js_String]. rewrite Hp.
      change (truthy (JObj _)) with true.
      destruct (negb (truthy (JStr p)) || negb true); [reflexivity|].
      rewrite Hfirst, Hfirst0.
      by rewrite (reduce_path_step_eq group' g c rest (Hother c Hc)).
  - (* a top-level field *)
    eexists. split; [reflexivity|].
    split; [|split].
    + apply valueByPath_top; [by apply allFields_nonempty | exact Hdot | exact Hdef].
    + intros p Hp. apply valueByPath_root.
      rewrite (root_nodot f Hdot) in Hp.
      unfold prop. by rewrite lookup_insert_ne by congruence.
    + intros p parent child c rest Hsplit. rewrite (split_dot_nodot f Hdot) in Hsplit.
      discriminate.
Qed.

End Skip.



(** ** The extraction branch of the merge *)

Section Merge.
Import IntelligentRecruiterChat.

Lemma nullish_not (v : JsVal) :
  negb (is_null v) && negb (is_undefined v) = negb (nullish v).
Proof. unfold nullish. by destruct (is_null v), (is_undefined v). Qed.



End Merge.




(** ** The heuristic mappings *)

Section Mappings.
Import IntelligentRecruiterChat.

Lemma assign_Normal w (o o' : Obj) k v :
  assign w o k v = Normal o' -> o' = <[k := v]> o.
Proof. unfold assign. destruct w; [intros [= <-]; reflexivity | discriminate]. Qed.

Lemma assign_other w (o o' : Obj) k v k' :
  assign w o k v = Normal o' -> k <> k' -> prop o' k' = prop o k'.
Proof.
  intros H Hne. rewrite (assign_Normal _ _ _ _ _ H).
  unfold prop. by rewrite lookup_insert_ne.
Qed.

(** Each heuristic writes its own property only, and leaves the object
    alone when its guard on the current record is off. *)

Lemma map_department_frame w current uv uv' :
  map_department w current uv = Normal uv' ->
  (forall k, k <> "department" -> prop uv' k = prop uv k) /\
  (truthy (prop current "department") = true -> uv' = uv).
Proof.
  unfold map_department.
  destruct (truthy (prop uv "title")).
  - destruct (prop uv "title"); simpl; try discriminate.
    destruct (title_is_technical s); simpl.
    + destruct (truthy (prop current "department")); simpl.
      * intros [= <-]. auto.
      * intros H. split; [|discriminate].
        intros k Hk. exact (assign_other _ _ _ _ _ _ H (not_eq_sym Hk)).
    + intros [= <-]. auto.
  - simpl. intros [= <-]. auto.
Qed.

Lemma map_salary_frame w msg current uv uv' :
  map_salary w msg current uv = Normal uv' ->
  forall k, k <> "salaryExpectations" -> prop uv' k = prop uv k.
Proof.
  unfold map_salary.
  destruct (match_first salary_at msg) as [[d1 d2]|]; [|intros [= <-]; auto].
  destruct (negb (truthy (current_salary_min current))); [|intros [= <-]; auto].
  intros H k Hk. exact (assign_other _ _ _ _ _ _ H (not_eq_sym Hk)).
Qed.

Lemma map_location_frame w msg current uv uv' :
  map_location w msg current uv = Normal uv' ->
  (forall k, k <> "locationType" -> k <> "remote" -> prop uv' k = prop uv k) /\
  (truthy (prop current "locationType") = true -> includes msg "office" = false ->
   uv' = uv).
Proof.
  unfold map_location.
  destruct (truthy (prop current "locationType")); simpl.
  - rewrite !andb_false_r. simpl. rewrite orb_false_r.
    destruct (includes msg "office").
    + intros H. split; [|discriminate].
      intros k Hk _. exact (assign_other _ _ _ _ _ _ H (not_eq_sym Hk)).
    + intros [= <-]. auto.
  - rewrite !andb_true_r. split; [|discriminate].
    destruct (includes msg "remote").
    + destruct (assign w uv "locationType" (JStr "remote")) as [u|] eqn:Hu;
        simpl in H; [|discriminate].
      intros k Hk1 Hk2.
      rewrite (assign_other _ _ _ _ _ _ H (not_eq_sym Hk2)).
      exact (assign_other _ _ _ _ _ _ Hu (not_eq_sym Hk1)).
    + destruct (includes msg "hybrid").
      * intros k Hk _. exact (assign_other _ _ _ _ _ _ H (not_eq_sym Hk)).
      * destruct (includes msg "office" || includes msg "on-site").
        -- intros k Hk _. exact (assign_other _ _ _ _ _ _ H (not_eq_sym Hk)).
        -- injection H as <-. auto.
Qed.

Lemma map_employment_frame w msg current uv uv' :
  map_employment w msg current uv = Normal uv' ->
  forall k, k <> "employmentType" -> prop uv' k = prop uv k.
Proof.
  unfold map_employment.
  destruct (includes msg "full" && includes msg "time"
            && negb (truthy (prop current "employmentType"))).
  - intros H k Hk. exact (assign_other _ _ _ _ _ _ H (not_eq_sym Hk)).
  - destruct (includes msg "part" && includes msg "time"
              && negb (truthy (prop current "employmentType"))).
    + intros H k Hk. exact (assign_other _ _ _ _ _ _ H (not_eq_sym Hk)).
    + intros [= <-]. auto.
Qed.

Lemma map_experience_frame w msg current uv uv' :
  map_experience w msg current uv = Normal uv' ->
  (forall k, k <> "overallExperiencesFrom" -> prop uv' k = prop uv k) /\
  (truthy (prop current "overallExperiencesFrom") = true -> uv' = uv).
Proof.
  unfold map_experience.
  destruct (match_first years_at msg) as [d|]; [|intros [= <-]; auto].
  destruct (truthy (prop current "overallExperiencesFrom")); simpl.
  - intros [= <-]. auto.
  - intros H. split; [|discriminate].
    intros k Hk. exact (assign_other _ _ _ _ _ _ H (not_eq_sym Hk)).
Qed.

Lemma map_skills_frame w text current uv uv' :
  map_skills w text current uv = Normal uv' ->
  (forall k, k <> "coreSkills" -> prop uv' k = prop uv k) /\
  (no_core_skills current = Normal false -> uv' = uv).
Proof.
  unfold map_skills.
  destruct (no_core_skills current) as [[|]|]; simpl; [| |discriminate].
  - destruct (0 <? length _)%nat.
    + intros H. split; [|discriminate].
      intros k Hk. exact (assign_other _ _ _ _ _ _ H (not_eq_sym Hk)).
    + intros [= <-]. split; [auto|discriminate].
  - intros [= <-]. auto.
Qed.

(** The six steps of a run that does not throw. *)
Lemma applySmartMappings_steps w uv text current uv' :
  applySmartMappings w uv (JStr text) current = Normal uv' ->
  exists uv1 uv2 uv3 uv4 uv5,
    map_department w current uv = Normal uv1 /\
    map_salary w (toLowerCase text) current uv1 = Normal uv2 /\
    map_location w (toLowerCase text) current uv2 = Normal uv3 /\
    map_employment w (toLowerCase text) current uv3 = Normal uv4 /\
    map_experience w (toLowerCase text) current uv4 = Normal uv5 /\
    map_skills w text current uv5 = Normal uv'.
Proof.
  unfold applySmartMappings.
  destruct (map_department w current uv) as [uv1|] eqn:H1; simpl; [|discriminate].
  destruct (map_salary w _ current uv1) as [uv2|] eqn:H2; simpl; [|discriminate].
  destruct (map_location w _ current uv2) as [uv3|] eqn:H3; simpl; [|discriminate].
  destruct (map_employment w _ current uv3) as [uv4|] eqn:H4; simpl; [|discriminate].
  destruct (map_experience w _ current uv4) as [uv5|] eqn:H5; simpl; [|discriminate].
  intros H6. exists uv1, uv2, uv3, uv4, uv5. auto 10.
Qed.

End Mappings.


(** The word "office" sets the location type whatever the record holds:
    in [a || b && c] the guard [c] belongs to [b] alone. *)
Example office_overrides_location :
  let current := <["locationType" := JStr "remote"]> IntelligentRecruiterChat.getVacancyTemplate in
  let r := IntelligentRecruiterChat.analyzeMessage (Normal "fill") (Parsed (JObj ∅))
             (JStr "The head office is in Lviv") current in
  prop (IntelligentRecruiterChat.updatedVacancy r) "locationType" = JStr "on_site".
Proof. vm_compute. reflexivity. Qed.



(** The two patterns of the heuristics on typical messages. *)
Example salary_range_match :
  IntelligentRecruiterChat.match_first IntelligentRecruiterChat.salary_at
    "budget is 4000-6000 dollars" = Some ("4000", Some "6000").
Proof. reflexivity. Qed.

Example salary_single_match :
  IntelligentRecruiterChat.match_first IntelligentRecruiterChat.salary_at
    "around 3000 dollars a month" = Some ("3000", None).
Proof. reflexivity. Qed.

Example years_match :
  IntelligentRecruiterChat.match_first IntelligentRecruiterChat.years_at
    "frontend developer, react, 3 years" = Some "3".
Proof. reflexivity. Qed.

Example years_plus_no_match :
  IntelligentRecruiterChat.match_first IntelligentRecruiterChat.years_at
    "3+ years" = None.
Proof. reflexivity. Qed.

(** Scenario A of the specification, on the code: the extraction fills
    the title, the skills and the experience; the heuristics add the
    department and replace the extracted skills by the keywords they
    found, so the next field asked is the domain. *)
Example scenario_A :
  let reply := Parsed (JObj (list_to_map
    [ ("title", JStr "Frontend developer");
      ("coreSkills", JArray [JStr "React"]);
      ("overallExperiencesFrom", JNum 3) ])) in
  let r := IntelligentRecruiterChat.analyzeMessage (Normal "fill") reply
             (JStr "Frontend developer, React, 3 years")
             IntelligentRecruiterChat.getVacancyTemplate in
  let v := IntelligentRecruiterChat.updatedVacancy r in
  prop v "title" = JStr "Frontend developer" /\
  prop v "overallExperiencesFrom" = JNum 3 /\
  prop v "coreSkills" = JArray [JStr "react"] /\
  prop v "department" = JStr "IT" /\
  IntelligentRecruiterChat.getNextMissingField (JObj v) = Normal (Some "domain").
Proof. repeat split; vm_compute; reflexivity. Qed.

(** ** A completed turn whose webhook fails *)

Section Webhook.
Import IntelligentRecruiterChat.

(** [sendToWebhook] throws exactly when [fetch] throws, when the response
    is not [ok], or when reading its body throws. *)
Lemma sendToWebhook_throws fetch :
  (exists e, sendToWebhook fetch = Throw e) <->
  fetch = FetchThrows \/
  (exists json, fetch = FetchResponds false json) \/
  (exists e, fetch = FetchResponds true (Throw e)).
Proof.
  split.
  - intros [e H]. destruct fetch as [|[|] [v|e']]; simpl in H; try discriminate; eauto.
  - intros [->|[[json ->]|[e ->]]]; simpl; eauto.
Qed.

Lemma generateResponse_returns intent question userMessage current :
  returns (generateResponse intent question userMessage current).
Proof.
  unfold generateResponse.
  destruct (getNextMissingField_returns (JObj current)) as [nf ->]. simpl.
  destruct (isVacancyComplete_returns (JObj current)) as [b ->]. simpl.
  destruct nf as [f|]; [|eexists; reflexivity].
  destruct (b && _); [eexists; reflexivity|].
  destruct question; eexists; reflexivity.
Qed.


End Webhook.



(** * Further properties of the IntelligentRecruiterChat server *)

(** ** The skip detector *)

(** X1.  A skip is decided only on a reply of the classifier that contains
    "skip" (after lower-casing and trimming): a failed call or any other
    reply means no skip.  A decision names the next missing field and
    carries the default chosen for that name. *)
Theorem skip_needs_positive_reply (reply : completion string) (current : Obj) :
  (is_Some (IntelligentRecruiterChat.checkForSkipResponse reply current) <->
   exists response, reply = Normal response /\
                    includes (trim (toLowerCase response)) "skip" = true) /\
  (forall sk, IntelligentRecruiterChat.checkForSkipResponse reply current = Some sk ->
     IntelligentRecruiterChat.getNextMissingField (JObj current)
       = Normal (IntelligentRecruiterChat.field sk) /\
     IntelligentRecruiterChat.value sk
       = IntelligentRecruiterChat.skip_default (IntelligentRecruiterChat.field sk)).
Proof.
  split.
  - split.
    + intros [sk Hsk].
      destruct (checkForSkipResponse_Some _ _ _ Hsk) as (response & -> & Hskip & _).
      eauto.
    + intros (response & -> & Hskip).
      unfold IntelligentRecruiterChat.checkForSkipResponse.
      destruct (getNextMissingField_returns (JObj current)) as [nf ->]. simpl.
      rewrite Hskip. simpl. eauto.
  - intros sk Hsk.
    destruct (checkForSkipResponse_Some _ _ _ Hsk) as (response & _ & _ & Hnext & Hval).
    split; assumption.
Qed.

Lemma skip_needs_positive_reply_witness :
  is_Some (IntelligentRecruiterChat.checkForSkipResponse (Normal " Skip
") intern_vacancy) /\
  IntelligentRecruiterChat.checkForSkipResponse (Throw api_error) intern_vacancy = None.
Proof.
  split.
  - apply (proj1 (skip_needs_positive_reply (Normal " Skip
") intern_vacancy)).
    eexists. split; [reflexivity | vm_compute; reflexivity].
  - reflexivity.
Defined.

(** The containment test also fires on a reply that declines to skip. *)
Example negated_skip_is_a_skip :
  is_Some (IntelligentRecruiterChat.checkForSkipResponse
             (Normal "do not skip, fill") intern_vacancy).
Proof. vm_compute. eauto. Qed.

(** ** Skipping and the next field *)

Section SkipProgress.
Import IntelligentRecruiterChat.

Lemma allFields_roots f g :
  f ∈ allFields -> g ∈ allFields -> root f = root g -> f = g.
Proof.
  unfold allFields. intros Hf Hg.
  repeat (apply elem_of_cons in Hf as [->|Hf];
          [repeat (apply elem_of_cons in Hg as [->|Hg];
                   [vm_compute; first [reflexivity | discriminate]|]);
           by apply elem_of_nil in Hg|]).
  by apply elem_of_nil in Hf.
Qed.

Lemma allFields_NoDup : NoDup allFields.
Proof.
  apply NoDup_ListNoDup. vm_compute.
  repeat constructor; simpl; intuition discriminate.
Qed.

Lemma skip_default_missing f :
  f ∈ allFields ->
  is_missing f (skip_default (Some f)) = negb (skip_settles f).
Proof.
  unfold allFields. intros Hf.
  repeat (apply elem_of_cons in Hf as [->|Hf]; [vm_compute; reflexivity|]).
  by apply elem_of_nil in Hf.
Qed.

Lemma getNextMissingField_find vacancy :
  getNextMissingField vacancy
  = Normal (snd <$> list_find (is_missing_at vacancy) allFields).
Proof. apply missing_loop_first. Qed.

End SkipProgress.

(** X2.  After a skip the selector is asked again.  For the two boolean fields
    of the list and for the description the default counts as an answer
    and the field is no longer the next missing one; for every other
    field (the required ones, the enums, the arrays, the numbers) the
    default is itself a missing value, so the same field is the next
    missing field again. *)
Theorem skip_and_next_field skipReply extraction userMessage
    (current : Obj) (sk : IntelligentRecruiterChat.SkipResponse) (f : string) :
  IntelligentRecruiterChat.checkForSkipResponse skipReply current = Some sk ->
  IntelligentRecruiterChat.field sk = Some f ->
  (truthy (prop current "salaryExpectations") = true ->
   IntelligentRecruiterChat.extensible (prop current "salaryExpectations") = true) ->
  let r := IntelligentRecruiterChat.analyzeMessage skipReply extraction userMessage current in
  let next := IntelligentRecruiterChat.getNextMissingField
                (JObj (IntelligentRecruiterChat.updatedVacancy r)) in
  if skip_settles f then next <> Normal (Some f) else next = Normal (Some f).
Proof.
  intros Hskip Hfield Hshape r next.
  destruct (checkForSkipResponse_Some _ _ _ Hskip) as (response & _ & _ & Hnext & Hval).
  destruct (apply_skip_spec sk current Hnext Hval Hshape) as (u & Hu & Hspec).
  assert (IntelligentRecruiterChat.updatedVacancy r = u) as Hr.
  { subst r. unfold IntelligentRecruiterChat.analyzeMessage. by rewrite Hskip, Hu. }
  subst next. rewrite Hr. clear r Hr.
  rewrite Hfield in Hspec, Hnext, Hval. destruct Hspec as (Hset & Hother & _).
  pose proof (next_missing_in_allFields _ _ Hnext) as Hin.
  pose proof (skip_default_missing f Hin) as Hmiss. rewrite <- Hval, <- Hset in Hmiss.
  rewrite getNextMissingField_find in Hnext |- *.
  destruct (list_find (is_missing_at (JObj current)) IntelligentRecruiterChat.allFields)
    as [[i f']|] eqn:Hfind; [|discriminate].
  injection Hnext as ->.
  apply list_find_Some in Hfind as (Hi & _ & Hbefore).
  destruct (skip_settles f).
  - intros Hagain.
    destruct (list_find (is_missing_at (JObj u)) IntelligentRecruiterChat.allFields)
      as [[j g]|] eqn:Hfind'; [|discriminate].
    injection Hagain as ->.
    apply list_find_Some in Hfind' as (_ & Hg & _).
    unfold is_missing_at in Hg. simpl in Hmiss. congruence.
  - assert (list_find (is_missing_at (JObj u)) IntelligentRecruiterChat.allFields
            = Some (i, f)) as ->; [|reflexivity].
    apply list_find_Some. split; [exact Hi|]. split; [exact Hmiss|].
    intros j g Hg Hj. unfold is_missing_at.
    rewrite Hother.
    + exact (Hbefore j g Hg Hj).
    + intros Hroot.
      assert (g ∈ IntelligentRecruiterChat.allFields) as Hgin
        by (eapply list_elem_of_lookup_2; exact Hg).
      pose proof (allFields_roots g f Hgin Hin Hroot) as ->.
      pose proof (NoDup_lookup _ j i f allFields_NoDup Hg Hi). lia.
Qed.

Lemma skip_and_next_field_witness :
  IntelligentRecruiterChat.getNextMissingField
    (JObj (IntelligentRecruiterChat.updatedVacancy
             (IntelligentRecruiterChat.analyzeMessage (Normal "skip") Malformed
                (JStr "no") skills_pending_vacancy)))
  = Normal (Some "coreSkills").
Proof.
  apply (skip_and_next_field (Normal "skip") Malformed (JStr "no") skills_pending_vacancy
           {| IntelligentRecruiterChat.value := JStr "";
              IntelligentRecruiterChat.field := Some "coreSkills" |} "coreSkills").
  - vm_compute. reflexivity.
  - reflexivity.
  - intros _. vm_compute. reflexivity.
Defined.

(** ** When the extraction succeeds *)

Section ExtractionSuccess.
Import IntelligentRecruiterChat.

Lemma assign_true (o : Obj) k v : assign true o k v = Normal (<[k := v]> o).
Proof. reflexivity. Qed.

Lemma map_department_returns current (uv : Obj) :
  returns (map_department true current uv) <->
  truthy (prop uv "title") = false \/ exists t, prop uv "title" = JStr t.
Proof.
  unfold map_department, returns. split.
  - intros [uv' H]. destruct (truthy (prop uv "title")) eqn:Ht; [|by left].
    right. destruct (prop uv "title"); simpl in H; try discriminate. eauto.
  - intros [Ht|[t Ht]].
    + rewrite Ht. simpl. eauto.
    + rewrite Ht. destruct (truthy (JStr t)); simpl; [|eauto].
      destruct (title_is_technical t && _); simpl; eauto.
Qed.

Lemma map_salary_returns msg current uv : returns (map_salary true msg current uv).
Proof.
  unfold map_salary, returns.
  destruct (match_first salary_at msg) as [[d1 d2]|]; [|eauto].
  destruct (negb _); simpl; eauto.
Qed.

Lemma map_location_returns msg current uv : returns (map_location true msg current uv).
Proof.
  unfold map_location, returns.
  repeat match goal with |- context [if ?b then _ else _] => destruct b end;
    simpl; eauto.
Qed.

Lemma map_employment_returns msg current uv : returns (map_employment true msg current uv).
Proof.
  unfold map_employment, returns.
  repeat match goal with |- context [if ?b then _ else _] => destruct b end;
    simpl; eauto.
Qed.

Lemma map_experience_returns msg current uv : returns (map_experience true msg current uv).
Proof.
  unfold map_experience, returns.
  destruct (match_first years_at msg); [|eauto]. destruct (negb _); simpl; eauto.
Qed.

Lemma no_core_skills_returns current : returns (no_core_skills current).
Proof.
  unfold no_core_skills, returns, length_is_zero.
  destruct (truthy (prop current "coreSkills")) eqn:Ht; simpl; [|eauto].
  destruct (get_member_truthy _ "length" Ht) as [n ->]. simpl. eauto.
Qed.

Lemma map_skills_returns text current uv : returns (map_skills true text current uv).
Proof.
  unfold map_skills, returns.
  destruct (no_core_skills_returns current) as [[|] ->]; simpl; [|eauto].
  destruct (0 <? _)%nat; simpl; eauto.
Qed.

Lemma applySmartMappings_returns (uv : Obj) text current :
  returns (applySmartMappings true uv (JStr text) current) <->
  truthy (prop uv "title") = false \/ exists t, prop uv "title" = JStr t.
Proof.
  rewrite <- (map_department_returns current uv). unfold applySmartMappings, returns. split.
  - intros [uv' H]. destruct (map_department true current uv); [eauto|discriminate].
  - intros [uv1 ->]. simpl.
    destruct (map_salary_returns (toLowerCase text) current uv1) as [uv2 ->]. simpl.
    destruct (map_location_returns (toLowerCase text) current uv2) as [uv3 ->]. simpl.
    destruct (map_employment_returns (toLowerCase text) current uv3) as [uv4 ->]. simpl.
    destruct (map_experience_returns (toLowerCase text) current uv4) as [uv5 ->]. simpl.
    apply map_skills_returns.
Qed.

End ExtractionSuccess.

(** X3.  Without a skip, on a reply that parses to an object and a message
    that is a string, the analysis succeeds exactly when the extracted
    title is falsy or a string (a truthy title of another type makes the
    heuristics throw); when it does not succeed, the result carries the
    record as it was and the error "Data processing error". *)
Theorem extraction_succeeds_iff skipReply (o : Obj) (text : string) (current : Obj) :
  IntelligentRecruiterChat.checkForSkipResponse skipReply current = None ->
  let r := IntelligentRecruiterChat.analyzeMessage skipReply (Parsed (JObj o))
             (JStr text) current in
  (IntelligentRecruiterChat.success r = true <->
   truthy (prop o "title") = false \/ exists t, prop o "title" = JStr t) /\
  (IntelligentRecruiterChat.success r = false ->
   IntelligentRecruiterChat.updatedVacancy r = current /\
   IntelligentRecruiterChat.error r = Some "Data processing error").
Proof.
  intros Hskip r. subst r.
  unfold IntelligentRecruiterChat.analyzeMessage. rewrite Hskip.
  unfold IntelligentRecruiterChat.apply_extraction.
  cbn [IntelligentRecruiterChat.extensible IntelligentRecruiterChat.own_props].
  rewrite <- (applySmartMappings_returns o text current). unfold returns.
  destruct (IntelligentRecruiterChat.applySmartMappings true o (JStr text) current)
    as [uv|e]; simpl.
  - split; [split; eauto|discriminate].
  - split; [|auto]. split; [discriminate|]. intros [uv H]. discriminate.
Qed.

Lemma extraction_succeeds_iff_witness :
  IntelligentRecruiterChat.success
    (IntelligentRecruiterChat.analyzeMessage (Normal "fill")
       (Parsed (JObj {[ "title" := JStr "Nurse" ]})) (JStr "a nurse") intern_vacancy) = true /\
  IntelligentRecruiterChat.updatedVacancy
    (IntelligentRecruiterChat.analyzeMessage (Normal "fill")
       (Parsed (JObj {[ "title" := JNum 7 ]})) (JStr "seven") intern_vacancy) = intern_vacancy.
Proof.
  split.
  - apply (proj1 (extraction_succeeds_iff (Normal "fill") {[ "title" := JStr "Nurse" ]}
                    "a nurse" intern_vacancy eq_refl)).
    right. eexists. reflexivity.
  - apply (proj2 (extraction_succeeds_iff (Normal "fill") {[ "title" := JNum 7 ]}
                    "seven" intern_vacancy eq_refl)).
    vm_compute. reflexivity.
Defined.

(** X4.  The heuristics write into seven properties only; every other
    property of the extracted object, the title among them, is after the
    heuristics what it was before. *)
Theorem smart_mappings_touch_only writable (uv uv' : Obj) (text : string) (current : Obj) :
  IntelligentRecruiterChat.applySmartMappings writable uv (JStr text) current = Normal uv' ->
  forall k, k ∉ mapped_properties -> prop uv' k = prop uv k.
Proof.
  intros H k Hk.
  destruct (applySmartMappings_steps _ _ _ _ _ H)
    as (uv1 & uv2 & uv3 & uv4 & uv5 & H1 & H2 & H3 & H4 & H5 & H6).
  unfold mapped_properties in Hk. rewrite !not_elem_of_cons in Hk.
  destruct Hk as (K1 & K2 & K3 & K4 & K5 & K6 & K7 & _).
  rewrite (proj1 (map_skills_frame _ _ _ _ _ H6) k K7).
  rewrite (proj1 (map_experience_frame _ _ _ _ _ H5) k K6).
  rewrite (map_employment_frame _ _ _ _ _ H4 k K5).
  rewrite (proj1 (map_location_frame _ _ _ _ _ H3) k K3 K4).
  rewrite (map_salary_frame _ _ _ _ _ H2 k K2).
  exact (proj1 (map_department_frame _ _ _ _ H1) k K1).
Qed.

Lemma smart_mappings_touch_only_witness :
  exists uv',
    IntelligentRecruiterChat.applySmartMappings true
      {[ "title" := JStr "Backend Developer" ]}
      (JStr "remote backend developer, 5 years, node") IntelligentRecruiterChat.getVacancyTemplate
      = Normal uv' /\
    prop uv' "title" = JStr "Backend Developer".
Proof.
  eexists. split; [vm_compute; reflexivity|].
  refine (smart_mappings_touch_only true {[ "title" := JStr "Backend Developer" ]} _
            "remote backend developer, 5 years, node"
            IntelligentRecruiterChat.getVacancyTemplate _ "title" _).
  - vm_compute. reflexivity.
  - unfold mapped_properties. rewrite !not_elem_of_cons.
    repeat (split; [discriminate|]). apply not_elem_of_nil.
Defined.

(** ** Algebra of the merge *)

Section MergeAlgebra.
Import IntelligentRecruiterChat.

Lemma mergeVacancy_lookup (current updated : Obj) (k : string) :
  mergeVacancy current updated !! k =
  match updated !! k with
  | Some v => if nullish v then current !! k else Some v
  | None => current !! k
  end.
Proof.
  unfold mergeVacancy.
  apply (map_fold_weak_ind
    (fun (merged : Obj) (m : Obj) =>
       merged !! k = match m !! k with
                     | Some v => if nullish v then current !! k else Some v
                     | None => current !! k
                     end)).
  - by rewrite lookup_empty.
  - intros i x m merged Hfresh IH. rewrite nullish_not.
    destruct (decide (i = k)) as [->|Hne].
    + rewrite lookup_insert_eq. rewrite Hfresh in IH.
      destruct (nullish x); simpl; [exact IH | by rewrite lookup_insert_eq].
    + rewrite (lookup_insert_ne m) by exact Hne. rewrite <- IH.
      destruct (nullish x); simpl; [reflexivity | by rewrite lookup_insert_ne].
Qed.

End MergeAlgebra.

(** X5.  The merge never removes a property of the current record; merging the
    same extraction a second time changes nothing; and merging a record
    into itself gives the record. *)
Theorem merge_algebra (current updated : Obj) :
  (forall k, is_Some (current !! k) ->
             is_Some (IntelligentRecruiterChat.mergeVacancy current updated !! k)) /\
  IntelligentRecruiterChat.mergeVacancy
    (IntelligentRecruiterChat.mergeVacancy current updated) updated
  = IntelligentRecruiterChat.mergeVacancy current updated /\
  IntelligentRecruiterChat.mergeVacancy current current = current.
Proof.
  split; [|split].
  - intros k Hk. rewrite mergeVacancy_lookup.
    destruct (updated !! k) as [v|]; [|exact Hk].
    destruct (nullish v); [exact Hk | eauto].
  - apply map_eq. intros k. rewrite !mergeVacancy_lookup.
    destruct (updated !! k) as [v|]; [|reflexivity].
    destruct (nullish v); reflexivity.
  - apply map_eq. intros k. rewrite mergeVacancy_lookup.
    destruct (current !! k) as [v|] eqn:Hk; [|reflexivity].
    destruct (nullish v); reflexivity.
Qed.

Lemma merge_algebra_witness :
  is_Some (IntelligentRecruiterChat.mergeVacancy intern_vacancy
             {[ "title" := JNull ]} !! "authorId").
Proof.
  apply (proj1 (merge_algebra intern_vacancy {[ "title" := JNull ]})).
  vm_compute. eauto.
Defined.

(** ** The answer of a turn *)

Section Answer.
Import IntelligentRecruiterChat.

Lemma fallback_question_defined f :
  f ∈ allFields -> is_Some (table_lookup fallbackQuestions f).
Proof.
  unfold allFields. intros Hf.
  repeat (apply elem_of_cons in Hf as [->|Hf]; [vm_compute; eauto|]).
  by apply elem_of_nil in Hf.
Qed.

End Answer.

(** X6.  An answer of [generateResponse] is complete exactly when no field
    is missing, or when the required fields are complete, the message is
    not empty and the reply to the intent question contains "yes".  The
    percentage it reports is 100 when no field is missing and 93
    otherwise, however many fields are filled. *)
Theorem generateResponse_answer intent question (userMessage : JsVal) (current : Obj) ai :
  IntelligentRecruiterChat.generateResponse intent question userMessage current = Normal ai ->
  exists next complete,
    IntelligentRecruiterChat.getNextMissingField (JObj current) = Normal next /\
    IntelligentRecruiterChat.isVacancyComplete (JObj current) = Normal complete /\
    (IntelligentRecruiterChat.isComplete ai = true <->
     next = None \/
     (complete = true /\ truthy userMessage = true /\
      exists reply, intent = Normal reply /\
                    includes (trim (toLowerCase reply)) "yes" = true)) /\
    IntelligentRecruiterChat.completionPercentage ai
      = (if next is Some _ then 93 else 100)%Z.
Proof.
  unfold IntelligentRecruiterChat.generateResponse.
  destruct (getNextMissingField_returns (JObj current)) as [next Hnext].
  destruct (isVacancyComplete_returns (JObj current)) as [complete Hcomplete].
  rewrite Hnext, Hcomplete. simpl. intros Hai. exists next, complete.
  split; [reflexivity|]. split; [reflexivity|].
  destruct next as [f|].
  - destruct complete; simpl in Hai.
    + destruct (truthy userMessage); simpl in Hai.
      * destruct intent as [reply|e]; simpl in Hai.
        -- destruct (includes (trim (toLowerCase reply)) "yes") eqn:Hyes; simpl in Hai.
           ++ injection Hai as <-. split; [|reflexivity]. split; [|reflexivity].
              intros _. right. repeat split. eauto.
           ++ destruct question; injection Hai as <-; (split; [|reflexivity]);
                (split; [discriminate|]);
                intros [H|(_ & _ & r & [= <-] & H)]; congruence.
        -- destruct question; injection Hai as <-; (split; [|reflexivity]);
             (split; [discriminate|]);
             intros [H|(_ & _ & r & H & _)]; congruence.
      * destruct question; injection Hai as <-; (split; [|reflexivity]);
          (split; [discriminate|]);
          intros [H|(_ & H & _)]; congruence.
    + destruct question; injection Hai as <-; (split; [|reflexivity]);
        (split; [discriminate|]);
        intros [H|(H & _)]; congruence.
  - injection Hai as <-. split; [|reflexivity]. split; [|reflexivity]. intros _. by left.
Qed.

Lemma generateResponse_answer_witness :
  exists next complete,
    IntelligentRecruiterChat.getNextMissingField (JObj (<["description" := JNull]> full_vacancy))
      = Normal next /\
    IntelligentRecruiterChat.isVacancyComplete (JObj (<["description" := JNull]> full_vacancy))
      = Normal complete /\
    (true = true <->
     next = None \/
     (complete = true /\ truthy (JStr "that is all, create it") = true /\
      exists reply, Normal "Yes." = Normal reply /\
                    includes (trim (toLowerCase reply)) "yes" = true)) /\
    93%Z = (if next is Some _ then 93 else 100)%Z.
Proof.
  apply (generateResponse_answer (Normal "Yes.") (Throw api_error)
           (JStr "that is all, create it") (<["description" := JNull]> full_vacancy)
           {| IntelligentRecruiterChat.message :=
                "Perfect! I'll create the job description now. 🚀";
              IntelligentRecruiterChat.isComplete := true;
              IntelligentRecruiterChat.completionPercentage := 93 |}).
  vm_compute. reflexivity.
Defined.

(** X7.  When the call that phrases the question fails on a turn that goes on
    collecting, the answer is the fixed question of the table for the
    pending field: every field of the list has one. *)
Theorem generateResponse_fallback intent e (userMessage : JsVal) (current : Obj) ai :
  IntelligentRecruiterChat.generateResponse intent (Throw e) userMessage current = Normal ai ->
  IntelligentRecruiterChat.isComplete ai = false ->
  exists f,
    IntelligentRecruiterChat.getNextMissingField (JObj current) = Normal (Some f) /\
    IntelligentRecruiterChat.table_lookup IntelligentRecruiterChat.fallbackQuestions f
      = Some (IntelligentRecruiterChat.message ai).
Proof.
  unfold IntelligentRecruiterChat.generateResponse.
  destruct (getNextMissingField_returns (JObj current)) as [next Hnext].
  destruct (isVacancyComplete_returns (JObj current)) as [complete Hcomplete].
  rewrite Hnext, Hcomplete. simpl.
  destruct next as [f|]; [|intros [= <-]; discriminate].
  destruct (fallback_question_defined f (next_missing_in_allFields _ _ Hnext)) as [q Hq].
  rewrite Hq.
  destruct (complete && _); simpl; intros [= <-]; [discriminate|].
  intros _. exists f. split; [reflexivity | exact Hq].
Qed.

Lemma generateResponse_fallback_witness :
  exists f,
    IntelligentRecruiterChat.getNextMissingField (JObj skills_pending_vacancy)
      = Normal (Some f) /\
    IntelligentRecruiterChat.table_lookup IntelligentRecruiterChat.fallbackQuestions f
      = Some "What are the main skills or technologies required?".
Proof.
  apply (generateResponse_fallback (Throw api_error) api_error (JStr "hm")
           skills_pending_vacancy
           {| IntelligentRecruiterChat.message :=
                "What are the main skills or technologies required?";
              IntelligentRecruiterChat.isComplete := false;
              IntelligentRecruiterChat.completionPercentage := 93 |}).
  - vm_compute. reflexivity.
  - reflexivity.
Defined.

(** ** The chat route of the IntelligentRecruiterChat server *)

Section Route.
Import IntelligentRecruiterChat.

Lemma complete_turn_status description fetch s ai :
  res_status (complete_turn description fetch s ai).2 = 200.
Proof.
  unfold complete_turn. destruct description; [|reflexivity].
  destruct (sendToWebhook fetch); reflexivity.
Qed.

Lemma analysed_session_id skipReply extraction msg s :
  id (analysed_session skipReply extraction msg s) = id s.
Proof.
  unfold analysed_session. destruct (truthy msg); [|reflexivity].
  destruct (success _); reflexivity.
Qed.

Lemma analysed_session_history skipReply extraction msg s :
  conversationHistory (analysed_session skipReply extraction msg s)
  = (conversationHistory s
     ++ (if truthy msg then [ {| role := user; content := msg |} ] else []))%list.
Proof.
  unfold analysed_session. destruct (truthy msg); [|by rewrite app_nil_r].
  destruct (success _); reflexivity.
Qed.

Lemma complete_turn_session description fetch s ai :
  exists m,
    conversationHistory (complete_turn description fetch s ai).1
    = (conversationHistory s ++ [ {| role := assistant; content := JStr m |} ])%list /\
    id (complete_turn description fetch s ai).1 = id s /\
    vacancy (complete_turn description fetch s ai).1 = vacancy s /\
    status (complete_turn description fetch s ai).1 = "completed" /\
    res_body (complete_turn description fetch s ai).2 !! "sessionId" = Some (JStr (id s)).
Proof.
  unfold complete_turn. destruct description as [d|e].
  - destruct (sendToWebhook fetch); eexists; repeat split; reflexivity.
  - eexists; repeat split; reflexivity.
Qed.

End Route.

Lemma chat_session_update now skipReply extraction intent question description fetch
    sessions req :
  let sid := (IntelligentRecruiterChat.open_session now sessions req).1 in
  let s0 := (IntelligentRecruiterChat.open_session now sessions req).2 in
  let result := IntelligentRecruiterChat.chat now skipReply extraction intent question
                  description fetch sessions req in
  exists s' reply,
    result.1 = <[sid := s']> sessions /\
    IntelligentRecruiterChat.id s' = IntelligentRecruiterChat.id s0 /\
    IntelligentRecruiterChat.conversationHistory s'
    = (IntelligentRecruiterChat.conversationHistory s0
       ++ (if truthy (req_message req)
           then [ {| role := user; content := req_message req |} ] else [])
       ++ reply)%list /\
    (res_status result.2 = 200 ->
     exists m, reply = [ {| role := assistant; content := JStr m |} ]) /\
    (res_status result.2 <> 200 -> reply = []).
Proof.
  intros sid s0 result. subst sid s0 result.
  unfold IntelligentRecruiterChat.chat.
  destruct (IntelligentRecruiterChat.open_session now sessions req) as [sid s0].
  cbn [fst snd].
  destruct ((length (IntelligentRecruiterChat.conversationHistory s0) =? 0)%nat
            && negb (truthy (req_message req))) eqn:Hwelcome.
  - apply andb_true_iff in Hwelcome as [_ Hmsg].
    apply negb_true_iff in Hmsg. rewrite Hmsg.
    eexists _, _. split; [reflexivity|]. split; [reflexivity|].
    split; [reflexivity|]. split; [|intros H; by destruct H].
    intros _. eauto.
  - set (s1 := IntelligentRecruiterChat.analysed_session skipReply extraction
                 (req_message req) s0).
    destruct (IntelligentRecruiterChat.generateResponse intent question
                (if truthy (req_message req) then req_message req else JStr "")
                (IntelligentRecruiterChat.vacancy s1)) as [ai|e].
    + destruct (IntelligentRecruiterChat.isComplete ai).
      * destruct (complete_turn_session description fetch s1 ai)
          as (m & Hh & Hid & _ & _ & _).
        pose proof (complete_turn_status description fetch s1 ai) as Hst.
        destruct (IntelligentRecruiterChat.complete_turn description fetch s1 ai)
          as [s2 resp].
        cbn [fst snd] in *. exists s2, [ {| role := assistant; content := JStr m |} ].
        split; [reflexivity|]. split; [rewrite Hid; apply analysed_session_id|].
        split; [rewrite Hh; unfold s1; rewrite analysed_session_history;
                by rewrite <- app_assoc|].
        split; [|intros H; congruence].
        intros _. eauto.
      * eexists _, [ _ ]. split; [reflexivity|].
        split; [apply analysed_session_id|].
        split; [cbn [IntelligentRecruiterChat.conversationHistory
                     IntelligentRecruiterChat.set_status
                     IntelligentRecruiterChat.push_history];
                unfold s1; rewrite analysed_session_history; by rewrite <- app_assoc|].
        split; [|intros H; by destruct H].
        intros _. eauto.
    + exists s1, []. split; [reflexivity|].
      split; [apply analysed_session_id|].
      split; [unfold s1; rewrite analysed_session_history; by rewrite app_nil_r|].
      split; [discriminate|reflexivity].
Qed.

(** X8.  A turn touches one session only, the one the request names or the
    new one: every other entry of the session map is as it was, and the
    id of that session stays.  Nothing is removed from its history: it
    grows by the user message, when there is one, followed, when the
    response has status 200, by exactly one assistant message. *)
Theorem chat_touches_one_session now skipReply extraction intent question description fetch
    sessions req :
  let sid := (IntelligentRecruiterChat.open_session now sessions req).1 in
  let s0 := (IntelligentRecruiterChat.open_session now sessions req).2 in
  let result := IntelligentRecruiterChat.chat now skipReply extraction intent question
                  description fetch sessions req in
  exists s' reply,
    result.1 = <[sid := s']> sessions /\
    (forall k, k <> sid -> result.1 !! k = sessions !! k) /\
    IntelligentRecruiterChat.id s' = IntelligentRecruiterChat.id s0 /\
    IntelligentRecruiterChat.conversationHistory s'
    = (IntelligentRecruiterChat.conversationHistory s0
       ++ (if truthy (req_message req)
           then [ {| role := user; content := req_message req |} ] else [])
       ++ reply)%list /\
    (res_status result.2 = 200 ->
     exists m, reply = [ {| role := assistant; content := JStr m |} ]) /\
    (res_status result.2 <> 200 -> reply = []).
Proof.
  intros sid s0 result.
  destruct (chat_session_update now skipReply extraction intent question description
              fetch sessions req) as (s' & reply & Hmap & Hid & Hh & Hok & Hko).
  exists s', reply. split; [exact Hmap|].
  split; [intros k Hk; fold result sid in Hmap; rewrite Hmap; by apply lookup_insert_ne|].
  split; [exact Hid|]. split; [exact Hh|].
  split; [exact Hok|exact Hko].
Qed.

Lemma open_session_keyed now sessions req :
  keyed_by_id sessions ->
  IntelligentRecruiterChat.id (IntelligentRecruiterChat.open_session now sessions req).2
  = (IntelligentRecruiterChat.open_session now sessions req).1.
Proof.
  intros Hkeyed. unfold IntelligentRecruiterChat.open_session, lookup_session.
  destruct (req_sessionId req) as [| | | | |sid| |]; try reflexivity.
  destruct (truthy (JStr sid)); [|reflexivity].
  destruct (sessions !! sid) as [s|] eqn:Hs; [|reflexivity].
  simpl. by apply Hkeyed.
Qed.

(** X9.  If every session is stored under its own id, it is so after a turn,
    the session the turn worked on is stored, and a response with status
    200 carries its key as [sessionId]: the client can come back with
    it. *)
Theorem chat_keeps_sessions_keyed now skipReply extraction intent question description fetch
    sessions req :
  keyed_by_id sessions ->
  let sid := (IntelligentRecruiterChat.open_session now sessions req).1 in
  let result := IntelligentRecruiterChat.chat now skipReply extraction intent question
                  description fetch sessions req in
  keyed_by_id result.1 /\
  is_Some (result.1 !! sid) /\
  (res_status result.2 = 200 -> res_body result.2 !! "sessionId" = Some (JStr sid)).
Proof.
  intros Hkeyed sid result.
  pose proof (open_session_keyed now sessions req Hkeyed) as Hid. fold sid in Hid.
  destruct (chat_session_update now skipReply extraction intent question description
              fetch sessions req) as (s' & reply & Hmap & Hid' & _).
  fold sid result in Hmap, Hid'. rewrite Hid in Hid'.
  split; [|split].
  - intros k s. rewrite Hmap. destruct (decide (k = sid)) as [->|Hne].
    + rewrite lookup_insert_eq. by intros [= <-].
    + rewrite lookup_insert_ne by congruence. apply Hkeyed.
  - rewrite Hmap, lookup_insert_eq. eauto.
  - subst result. unfold IntelligentRecruiterChat.chat.
    subst sid.
    destruct (IntelligentRecruiterChat.open_session now sessions req) as [sid s0].
    cbn [fst snd] in *.
    destruct (_ && _); [reflexivity|].
    set (s1 := IntelligentRecruiterChat.analysed_session skipReply extraction
                 (req_message req) s0).
    destruct (IntelligentRecruiterChat.generateResponse intent question
                (if truthy (req_message req) then req_message req else JStr "")
                (IntelligentRecruiterChat.vacancy s1)) as [ai|e]; [|discriminate].
    destruct (IntelligentRecruiterChat.isComplete ai).
    + destruct (complete_turn_session description fetch s1 ai)
        as (_ & _ & _ & _ & _ & Hresp).
      destruct (IntelligentRecruiterChat.complete_turn description fetch s1 ai) as [s2 resp].
      cbn [fst snd] in *. intros _. rewrite Hresp. unfold s1.
      by rewrite analysed_session_id, Hid.
    + intros _. cbn. unfold s1. by rewrite analysed_session_id, Hid.
Qed.

Lemma chat_keeps_sessions_keyed_witness :
  res_body (IntelligentRecruiterChat.chat "1700000000000" (Normal "fill") Malformed
              (Throw api_error) (Throw api_error) (Throw api_error)
              IntelligentRecruiterChat.FetchThrows ∅
              {| req_message := JStr "hello"; req_sessionId := JNull |}).2 !! "sessionId"
  = Some (JStr "1700000000000").
Proof.
  apply (chat_keeps_sessions_keyed "1700000000000" (Normal "fill") Malformed
           (Throw api_error) (Throw api_error) (Throw api_error)
           IntelligentRecruiterChat.FetchThrows ∅
           {| req_message := JStr "hello"; req_sessionId := JNull |}).
  - intros k s Hs. by rewrite lookup_empty in Hs.
  - reflexivity.
Defined.



(** * Further properties of the VacancyBuilder server *)

(** ** The ring search *)

Section RingSearch.
Import VacancyBuilder.

Lemma indexOf_absent (l : list string) x : x ∉ l -> indexOf l x = (-1)%Z.
Proof.
  induction l as [|y l IH]; intros Hx; simpl; [reflexivity|].
  apply not_elem_of_cons in Hx as [Hne Hx].
  destruct (String.eqb_spec y x) as [->|_]; [congruence|].
  by rewrite (IH Hx).
Qed.

Lemma rotate_last_index k len :
  k < len -> rotate_nat_add (S k) (len - 1) len = k.
Proof.
  intros Hk. unfold rotate_nat_add.
  replace (Z.of_nat (S k) + Z.of_nat (len - 1))%Z with (Z.of_nat k + 1 * Z.of_nat len)%Z by lia.
  rewrite Z.mod_add by lia. rewrite Z.mod_small by lia. lia.
Qed.

End RingSearch.

(** X11.  A last asked field that is not a field name (or is empty) is as if
    there was none: the search starts at the first field. *)
Theorem unknown_last_field_restarts (fs : list VacancyBuilder.Field) (vacancy : JsVal)
    (l : string) :
  l ∉ map VacancyBuilder.name fs ->
  VacancyBuilder.findNextFieldToFill fs vacancy (Some l)
  = VacancyBuilder.findNextFieldToFill fs vacancy None.
Proof.
  intros Hl. unfold VacancyBuilder.findNextFieldToFill, VacancyBuilder.lastIndexOf.
  destruct (negb (String.eqb l "")); [|reflexivity].
  by rewrite (indexOf_absent _ _ Hl).
Qed.

Lemma unknown_last_field_restarts_witness :
  VacancyBuilder.findNextFieldToFill VacancyBuilder.fields
    VacancyBuilder.getVacancyTemplate (Some "coreSkills")
  = VacancyBuilder.findNextFieldToFill VacancyBuilder.fields
      VacancyBuilder.getVacancyTemplate None.
Proof.
  apply unknown_last_field_restarts. vm_compute.
  intros H. repeat (apply elem_of_cons in H as [H|H]; [discriminate|]).
  by apply elem_of_nil in H.
Defined.

(** X12.  The field that was asked last is asked again only when it is the one
    field left: if the search returns the last asked field, every other
    field is filled. *)
Theorem last_field_asked_again_only_if_alone (fs : list VacancyBuilder.Field)
    (vacancy : JsVal) (l : string) (f : VacancyBuilder.Field) :
  NoDup (map VacancyBuilder.name fs) ->
  l <> "" ->
  VacancyBuilder.findNextFieldToFill fs vacancy (Some l) = Normal (Some f) ->
  VacancyBuilder.name f = l ->
  forall n, n ∈ map VacancyBuilder.name fs -> n <> l ->
    VacancyBuilder.unfilled (valueByPath vacancy (JStr n)) = false.
Proof.
  intros Hnd Hl Hfind Hname n Hn Hne.
  set (names := map VacancyBuilder.name fs) in *.
  destruct (findNextFieldToFill_ring fs vacancy (Some l)) as (r & Hr & Hspec).
  rewrite Hfind in Hr. injection Hr as <-. fold names in Hspec.
  destruct Hspec as (Hf & i & Hi & _ & Hbefore). rewrite Hname in Hi.
  assert (l ∈ names) as Hlin.
  { apply (elem_of_rotate names (Z.to_nat (VacancyBuilder.lastIndexOf names (Some l) + 1))).
    eapply list_elem_of_lookup_2. exact Hi. }
  apply list_elem_of_lookup in Hlin as [k Hk].
  rewrite (lastIndexOf_at names l k Hl Hk (NoDup_first names l k Hnd Hk)) in Hi, Hbefore.
  pose proof (lookup_lt_Some _ _ _ Hk) as Hlen.
  assert (NoDup (rotate (S k) names)) as Hnd' by (by rewrite rotate_perm).
  assert (rotate (S k) names !! (length names - 1) = Some l) as Hlast.
  { rewrite lookup_rotate_r by lia. by rewrite rotate_last_index. }
  pose proof (NoDup_lookup _ _ _ _ Hnd' Hi Hlast) as ->.
  assert (n ∈ rotate (S k) names) as Hn' by (by apply elem_of_rotate).
  apply list_elem_of_lookup in Hn' as [j Hj].
  pose proof (lookup_lt_Some _ _ _ Hj) as Hjlen. rewrite length_rotate in Hjlen.
  apply (Hbefore j n); [|exact Hj].
  destruct (decide (j = length names - 1)) as [->|]; [|lia].
  rewrite Hlast in Hj. congruence.
Qed.

Lemma last_field_asked_again_only_if_alone_witness :
  VacancyBuilder.unfilled
    (valueByPath (JObj {[ "title" := JNull; "department" := JStr "IT" ]}) (JStr "department"))
  = false.
Proof.
  apply (last_field_asked_again_only_if_alone
           [ {| VacancyBuilder.name := "title"; VacancyBuilder.displayName := "Job Title";
                VacancyBuilder.type := VacancyBuilder.TString |};
             {| VacancyBuilder.name := "department";
                VacancyBuilder.displayName := "Department";
                VacancyBuilder.type := VacancyBuilder.TEnum |} ]
           (JObj {[ "title" := JNull; "department" := JStr "IT" ]}) "title"
           {| VacancyBuilder.name := "title"; VacancyBuilder.displayName := "Job Title";
              VacancyBuilder.type := VacancyBuilder.TString |}).
  - apply NoDup_ListNoDup. vm_compute. repeat constructor; simpl; intuition discriminate.
  - discriminate.
  - vm_compute. reflexivity.
  - reflexivity.
  - vm_compute. apply list_elem_of_In. simpl. tauto.
  - discriminate.
Defined.

(** ** The chat route of the VacancyBuilder server *)

Section BuilderRoute.
Import VacancyBuilder.

(** The comparison of the status with the literal, as a test. *)
Lemma status_dispatch {A} (st : JsVal) (a : A) (b : JsVal -> A) :
  match st with
  | JStr "CLARIFICATION_NEEDED" => a
  | other => b other
  end = if needs_clarification st then a else b st.
Proof.
  destruct st as [| | | | |s| |]; try reflexivity. unfold needs_clarification.
  do 20 (destruct s as [|[[|] [|] [|] [|] [|] [|] [|] [|]] s]; try reflexivity).
  destruct s; reflexivity.
Qed.


(** The result of the extraction step can always be read, and its status
    and its vacancy are truthy whenever the vacancy it was given is: a
    usable reply was checked for both, the fallback carries the vacancy
    it was given. *)
Lemma extraction_result_shape vacancy reply :
  truthy vacancy = true ->
  exists st uv commentary,
    get_member (extractAndUpdateFields vacancy reply) "status" = Normal st /\
    truthy st = true /\
    get_member (extractAndUpdateFields vacancy reply) "updatedVacancy" = Normal uv /\
    truthy uv = true /\
    get_member (extractAndUpdateFields vacancy reply) "commentary" = Normal commentary.
Proof.
  intros Hv. unfold extractAndUpdateFields.
  destruct (checked_reply reply) as [r|e] eqn:Hr.
  - destruct reply as [| |v]; simpl in Hr; try discriminate.
    destruct (get_member v "status") as [st|] eqn:Hst; simpl in Hr; [|discriminate].
    destruct (truthy st) eqn:Htst; simpl in Hr; [|discriminate].
    destruct (get_member v "updatedVacancy") as [uv|] eqn:Huv; simpl in Hr; [|discriminate].
    destruct (truthy uv) eqn:Htuv; simpl in Hr; [|discriminate].
    injection Hr as <-.
    destruct (get_member_defined v "status" "commentary" st Hst) as [c Hc].
    exists st, uv, c. auto.
  - exists (JStr "CLARIFICATION_NEEDED"), vacancy, (JStr rephrase_request).
    repeat split; try reflexivity. exact Hv.
Qed.

Lemma generateNextResponse_vacancy s question description :
  vacancy (generateNextResponse s question description).1 = vacancy s /\
  id (generateNextResponse s question description).1 = id s.
Proof.
  unfold generateNextResponse.
  destruct (findNextFieldToFill fields (vacancy s) (lastQuestionField s)) as [[f|]|];
    split; reflexivity.
Qed.

Lemma answer_session question description sessions sid s :
  exists s',
    (answer question description sessions sid s).1 = <[sid := s']> sessions /\
    vacancy s' = vacancy s /\ id s' = id s.
Proof.
  unfold answer.
  destruct (generateNextResponse_vacancy s question description) as [Hv Hi].
  destruct (generateNextResponse s question description) as [s1 [[msg c]|e]];
    simpl in *; eexists; (split; [reflexivity|]); split; assumption.
Qed.

(** A complete answer needs a generated description, and
    [generateJobDescription] builds its prompt from [coreSkills],
    [secondarySkills], [languages] and [salaryExpectations]. *)
Lemma generateJobDescription_Normal vacancy reply text :
  generateJobDescription vacancy reply = Normal text ->
  reply = Normal text /\
  exists coreSkills secondarySkills languages salaryExpectations,
    get_member vacancy "coreSkills" = Normal coreSkills /\ isArray coreSkills = true /\
    get_member vacancy "secondarySkills" = Normal secondarySkills /\
    isArray secondarySkills = true /\
    get_member vacancy "languages" = Normal languages /\ isArray languages = true /\
    get_member vacancy "salaryExpectations" = Normal salaryExpectations /\
    nullish salaryExpectations = false.
Proof.
  unfold generateJobDescription.
  destruct (get_member vacancy "coreSkills") as [cs|]; simpl; [|discriminate].
  destruct (get_member vacancy "secondarySkills") as [ss|]; simpl; [|discriminate].
  destruct (get_member vacancy "languages") as [ls|]; simpl; [|discriminate].
  destruct (get_member vacancy "salaryExpectations") as [se|]; simpl; [|discriminate].
  destruct (isArray cs) eqn:Hcs; simpl; [|discriminate].
  destruct (isArray ss) eqn:Hss; simpl; [|discriminate].
  destruct ls as [| | | | | |langs o|]; try discriminate.
  destruct (forallb _ langs); [|discriminate].
  destruct (get_member se "min") as [m|] eqn:Hmin; simpl; [|discriminate].
  intros ->. split; [reflexivity|].
  exists cs, ss, (JArr langs o), se. repeat split; try reflexivity; try assumption.
  by destruct se.
Qed.

End BuilderRoute.

(** X13.  If every stored session holds a truthy vacancy (the template is one),
    so does every session after a turn: the vacancy of a session is
    never [null] or [undefined], whatever the model replies. *)
Theorem builder_vacancy_stays_present now reply question description sessions req :
  vacancies_present sessions ->
  vacancies_present (VacancyBuilder.chat now reply question description sessions req).1.
Proof.
  intros Hpresent.
  assert (truthy (VacancyBuilder.vacancy (VacancyBuilder.open_session now sessions req).2)
          = true) as Hs0.
  { unfold VacancyBuilder.open_session, lookup_session.
    destruct (req_sessionId req) as [| | | | |sid| |]; try reflexivity.
    destruct (truthy (JStr sid)); [|reflexivity].
    destruct (sessions !! sid) as [s|] eqn:Hs; [|reflexivity].
    exact (Hpresent sid s Hs). }
  assert (forall sid s' k s,
            truthy (VacancyBuilder.vacancy s') = true ->
            (<[sid := s']> sessions) !! k = Some s ->
            truthy (VacancyBuilder.vacancy s) = true) as Hins.
  { intros sid s' k s Hs'. destruct (decide (sid = k)) as [->|Hne].
    - rewrite lookup_insert_eq. by intros [= <-].
    - rewrite lookup_insert_ne by exact Hne. apply Hpresent. }
  unfold VacancyBuilder.chat.
  destruct (VacancyBuilder.open_session now sessions req) as [sid s0]. cbn [snd] in Hs0.
  assert (forall s, truthy (VacancyBuilder.vacancy s) = true ->
            vacancies_present (VacancyBuilder.answer question description sessions sid s).1)
    as Hanswer.
  { intros s Hs k s2.
    destruct (answer_session question description sessions sid s) as (s' & -> & Hv & _).
    apply Hins. by rewrite Hv. }
  destruct (truthy (req_message req)); [|by apply Hanswer].
  destruct (extraction_result_shape (VacancyBuilder.vacancy s0) reply Hs0)
    as (st & uv & c & Hst & _ & Huv & Htuv & Hc).
  cbn [VacancyBuilder.vacancy VacancyBuilder.push_history].
  rewrite Huv, Hst, Hc. rewrite (status_dispatch st _ (fun _ => _)).
  destruct (needs_clarification st).
  - intros k s. apply Hins. exact Htuv.
  - apply Hanswer. exact Htuv.
Qed.

Lemma builder_vacancy_stays_present_witness :
  vacancies_present
    (VacancyBuilder.chat "1700000000000" (Parsed JNull) (Normal "q") (Normal "d") ∅
       {| req_message := JStr "hm"; req_sessionId := JNull |}).1.
Proof.
  apply builder_vacancy_stays_present.
  intros k s Hs. by rewrite lookup_empty in Hs.
Defined.

(** X14.  The route answers [isComplete] true only for a vacancy that has
    arrays [coreSkills], [secondarySkills] and [languages] and a
    [salaryExpectations] group, which are not fields of this server (its
    fields are [skills], [secondary_skills], [salary], ...), and only
    when the description call succeeds; the session is then pending
    generation. *)
Theorem builder_completion_needs_other_schema now reply question description sessions req :
  let sid := (VacancyBuilder.open_session now sessions req).1 in
  let result := VacancyBuilder.chat now reply question description sessions req in
  res_body result.2 !! "isComplete" = Some (JBool true) ->
  exists s' coreSkills secondarySkills languages salaryExpectations text,
    result.1 !! sid = Some s' /\
    VacancyBuilder.status s' = "pending_generation" /\
    description = Normal text /\
    get_member (VacancyBuilder.vacancy s') "coreSkills" = Normal coreSkills /\
    isArray coreSkills = true /\
    get_member (VacancyBuilder.vacancy s') "secondarySkills" = Normal secondarySkills /\
    isArray secondarySkills = true /\
    get_member (VacancyBuilder.vacancy s') "languages" = Normal languages /\
    isArray languages = true /\
    get_member (VacancyBuilder.vacancy s') "salaryExpectations" = Normal salaryExpectations /\
    nullish salaryExpectations = false.
Proof.
  intros sid result. subst sid result. unfold VacancyBuilder.chat.
  destruct (VacancyBuilder.open_session now sessions req) as [sid s0]. cbn [fst].
  assert (forall s,
    res_body (VacancyBuilder.answer question description sessions sid s).2 !! "isComplete"
      = Some (JBool true) ->
    exists s' coreSkills secondarySkills languages salaryExpectations text,
      (VacancyBuilder.answer question description sessions sid s).1 !! sid = Some s' /\
      VacancyBuilder.status s' = "pending_generation" /\
      description = Normal text /\
      get_member (VacancyBuilder.vacancy s') "coreSkills" = Normal coreSkills /\
      isArray coreSkills = true /\
      get_member (VacancyBuilder.vacancy s') "secondarySkills" = Normal secondarySkills /\
      isArray secondarySkills = true /\
      get_member (VacancyBuilder.vacancy s') "languages" = Normal languages /\
      isArray languages = true /\
      get_member (VacancyBuilder.vacancy s') "salaryExpectations" = Normal salaryExpectations /\
      nullish salaryExpectations = false) as Hanswer.
  { intros s. unfold VacancyBuilder.answer, VacancyBuilder.generateNextResponse.
    destruct (VacancyBuilder.findNextFieldToFill VacancyBuilder.fields
                (VacancyBuilder.vacancy s) (VacancyBuilder.lastQuestionField s))
      as [[f|]|e]; [| |discriminate].
    - destruct question; simpl; discriminate.
    - destruct (VacancyBuilder.generateJobDescription (VacancyBuilder.vacancy s) description)
        as [text|e] eqn:Hgen; simpl; [|discriminate].
      intros _.
      destruct (generateJobDescription_Normal _ _ _ Hgen)
        as (-> & cs & ss & ls & se & H1 & H2 & H3 & H4 & H5 & H6 & H7 & H8).
      eexists _, cs, ss, ls, se, text. split; [apply lookup_insert_eq|].
      simpl. repeat split; assumption || reflexivity. }
  destruct (truthy (req_message req)); [|apply Hanswer].
  destruct (get_member _ "updatedVacancy") as [uv|]; [|discriminate].
  destruct (get_member _ "status") as [st|]; [|discriminate].
  rewrite (status_dispatch st _ (fun _ => _)).
  destruct (needs_clarification st); [|apply Hanswer].
  destruct (get_member _ "commentary"); discriminate.
Qed.

Lemma builder_completion_needs_other_schema_witness :
  exists s',
    (VacancyBuilder.chat "1700000000000"
       (Parsed (JObj (list_to_map
          [ ("status", JStr "SUCCESS"); ("updatedVacancy", two_schema_vacancy) ])))
       (Normal "q") (Normal "# Nurse") ∅
       {| req_message := JStr "that is all"; req_sessionId := JNull |}).1
      !! "1700000000000" = Some s' /\
    VacancyBuilder.status s' = "pending_generation".
Proof.
  destruct (builder_completion_needs_other_schema "1700000000000"
              (Parsed (JObj (list_to_map
                 [ ("status", JStr "SUCCESS"); ("updatedVacancy", two_schema_vacancy) ])))
              (Normal "q") (Normal "# Nurse") ∅
              {| req_message := JStr "that is all"; req_sessionId := JNull |})
    as (s' & _ & _ & _ & _ & _ & Hs' & Hst & _).
  - vm_compute. reflexivity.
  - exists s'. split; [exact Hs' | exact Hst].
Defined.



(** * The other routes of the IntelligentRecruiterChat server *)

Section OtherRoutes.
Import IntelligentRecruiterChat RecruiterRoutes.

Lemma count_filled_filter vacancy (fs : list (string * FieldType)) :
  count_filled vacancy fs
  = Normal (length (List.filter (fun f => counted (valueByPath vacancy (JStr f.1))) fs)).
Proof.
  induction fs as [|f fs IH]; simpl; [reflexivity|].
  rewrite getValueByPath_value, IH. simpl.
  by destruct (counted (valueByPath vacancy (JStr f.1))).
Qed.

Lemma filter_length_all {A} (p : A -> bool) (l : list A) :
  length (List.filter p l) <= length l /\
  (length (List.filter p l) = length l <-> forall x, x ∈ l -> p x = true).
Proof.
  induction l as [|x l [IHle IHall]]; simpl.
  - split; [lia|]. split; [|reflexivity]. intros _ x Hx. by apply elem_of_nil in Hx.
  - destruct (p x) eqn:Hp; simpl.
    + split; [lia|]. split.
      * intros H y Hy. apply elem_of_cons in Hy as [->|Hy]; [exact Hp|].
        apply IHall; [lia | exact Hy].
      * intros H. f_equal. apply IHall. intros y Hy. apply H. by constructor.
    + split; [lia|]. split; [lia|].
      intros H. specialize (H x ltac:(constructor)). congruence.
Qed.

Lemma percentage_19 (n : nat) :
  n <= 19 ->
  (0 <= percentage (Z.of_nat n) 19 <= 100)%Z /\
  (percentage (Z.of_nat n) 19 = 100%Z <-> n = 19) /\
  (percentage (Z.of_nat n) 19 = 0%Z <-> n = 0).
Proof.
  intros Hn.
  do 20 (destruct n as [|n]; [vm_compute; repeat split; congruence || lia || auto|]).
  lia.
Qed.

End OtherRoutes.

(** X16.  [POST /api/generate-job] answers 200 exactly when the session exists,
    [isVacancyComplete] holds of its vacancy and the generator returns;
    the body then carries the generated text.  An unknown session and an
    incomplete vacancy are answered with 400 without consulting the
    generator. *)
Theorem generate_job_gate (description : completion string)
    (sessions : gmap string IntelligentRecruiterChat.Session) (sessionId : JsVal) :
  let response := RecruiterRoutes.generate_job description sessions sessionId in
  (res_status response = 200 <->
   exists sid session text,
     lookup_session sessions sessionId = Some (sid, session) /\
     IntelligentRecruiterChat.isVacancyComplete
       (JObj (IntelligentRecruiterChat.vacancy session)) = Normal true /\
     description = Normal text /\
     res_body response !! "jobDescription" = Some (JStr text)) /\
  (res_status response = 400 ->
   forall description',
     RecruiterRoutes.generate_job description' sessions sessionId = response).
Proof.
  intros response. subst response. unfold RecruiterRoutes.generate_job.
  destruct (lookup_session sessions sessionId) as [[sid session]|].
  - destruct (isVacancyComplete_returns (JObj (IntelligentRecruiterChat.vacancy session)))
      as [c Hc].
    rewrite Hc. destruct c.
    + destruct description as [text|e]; simpl.
      * split; [|discriminate]. split; [|intros _; reflexivity].
        intros _. exists sid, session, text. repeat split; exact Hc.
      * split; [|discriminate]. split; [discriminate|].
        intros (? & ? & ? & _ & _ & H & _). discriminate.
    + simpl. split; [|reflexivity]. split; [discriminate|].
      intros (? & ? & ? & [= <- <-] & H & _). congruence.
  - simpl. split; [|reflexivity]. split; [discriminate|].
    intros (? & ? & ? & H & _). discriminate.
Qed.

Lemma generate_job_gate_witness :
  RecruiterRoutes.generate_job (Throw api_error) {[ "7" := intern_session ]} (JStr "7")
  = RecruiterRoutes.generate_job (Normal "# Intern") {[ "7" := intern_session ]} (JStr "7").
Proof.
  apply (proj2 (generate_job_gate (Normal "# Intern") {[ "7" := intern_session ]} (JStr "7"))).
  vm_compute. reflexivity.
Defined.

(** X17.  [GET /api/vacancy/:sessionId], for a known session: the percentage is
    between 0 and 100; it is 100 exactly when each of the 19 fields of the
    schema holds a value that is not [null], not [undefined] and not an
    empty array, and 0 exactly when none does.  The empty string, [false]
    and [0] count, unlike in the completion check and in the selector. *)
Theorem vacancy_info_percentage (sessions : gmap string IntelligentRecruiterChat.Session)
    (sessionId sid : string) (session : IntelligentRecruiterChat.Session) :
  lookup_session sessions (JStr sessionId) = Some (sid, session) ->
  let response := RecruiterRoutes.vacancy_info sessions sessionId in
  let value f := valueByPath (JObj (IntelligentRecruiterChat.vacancy session)) (JStr f) in
  res_status response = 200 /\
  exists p,
    res_body response !! "completionPercentage" = Some (JNum p) /\
    (0 <= p <= 100)%Z /\
    (p = 100%Z <->
     forall f, f ∈ IntelligentRecruiterChat.vacancyFields ->
               RecruiterRoutes.counted (value f.1) = true) /\
    (p = 0%Z <->
     forall f, f ∈ IntelligentRecruiterChat.vacancyFields ->
               RecruiterRoutes.counted (value f.1) = false).
Proof.
  intros Hs response value. subst response.
  unfold RecruiterRoutes.vacancy_info. rewrite Hs.
  rewrite count_filled_filter.
  destruct (isVacancyComplete_returns (JObj (IntelligentRecruiterChat.vacancy session)))
    as [c ->].
  set (p := fun f : string * IntelligentRecruiterChat.FieldType =>
              RecruiterRoutes.counted
                (valueByPath (JObj (IntelligentRecruiterChat.vacancy session)) (JStr f.1))).
  set (n := length (List.filter p IntelligentRecruiterChat.vacancyFields)).
  destruct (filter_length_all p IntelligentRecruiterChat.vacancyFields) as [Hle Hall].
  destruct (filter_length_all (fun f => negb (p f)) IntelligentRecruiterChat.vacancyFields)
    as [_ Hnone].
  fold n in Hle, Hall.
  change (length IntelligentRecruiterChat.vacancyFields) with 19 in *.
  destruct (percentage_19 n Hle) as (Hb & H100 & H0).
  split; [reflexivity|]. eexists. split; [reflexivity|].
  split; [exact Hb|]. split.
  - rewrite H100. exact Hall.
  - rewrite H0. unfold value.
    assert (n = 0 <->
            length (List.filter (fun f => negb (p f)) IntelligentRecruiterChat.vacancyFields)
            = 19) as ->.
    { pose proof (List.filter_length p IntelligentRecruiterChat.vacancyFields) as Hsum.
      change (length IntelligentRecruiterChat.vacancyFields) with 19 in Hsum.
      fold n in Hsum. lia. }
    rewrite Hnone. split; intros H f Hf; specialize (H f Hf); fold (p f) in *;
      by destruct (p f).
Qed.

Lemma vacancy_info_percentage_witness :
  res_body (RecruiterRoutes.vacancy_info {[ "42" := full_session ]} "42")
    !! "completionPercentage" = Some (JNum 84).
Proof.
  assert (lookup_session {[ "42" := full_session ]} (JStr "42") = Some ("42", full_session))
    as Hs by (vm_compute; reflexivity).
  destruct (vacancy_info_percentage {[ "42" := full_session ]} "42" "42" full_session Hs)
    as (_ & p & Hp & _).
  rewrite Hp. vm_compute in Hp. injection Hp as <-. reflexivity.
Defined.
